(** * LunatiX chat front end: the voice session hook and the conversation page

    A shallow embedding of [useVoiceChat] (hooks/useVoiceChat) and of the
    [ChatbotPage] component (pages/ChatbotPage.tsx, the variant with the
    microphone button; the floating widget carries the same [appendMessage]
    and [sendMessage]), followed by the properties of the voice-enabled
    conversational session manager.

    JavaScript runs each handler to completion on one thread, so a handler is
    a function of the component's cells (React state and refs) in a state
    monad with exceptions.  React applies queued state updaters in call
    order; a setter therefore acts on its cell at once.  What a render saw of
    the state is kept apart: a render captures [loading], and the effect it
    schedules writes that captured value when React gets to run it, which
    can be turns later.  The browser, React's scheduler and the chat backend
    are the environment: they choose when a recognition object fires a
    signal, whether [recognition.start()] throws, when the page renders and
    when a scheduled effect runs, and how a pending request settles. *)

From stdpp Require Import base list option strings pretty.

Set Default Proof Using "Type".

(** ** JavaScript strings *)

(** A string is its sequence of UTF-16 code units. *)
Definition jsstring := list N.

(** A source literal; every literal of the modelled files is ASCII. *)
Fixpoint lit (s : string) : jsstring :=
  match s with
  | EmptyString => []
  | String a s' => Stdlib.Strings.Ascii.N_of_ascii a :: lit s'
  end.

(** ECMAScript WhiteSpace and LineTerminator code points, the ones
    [String.prototype.trim] strips. *)
Definition isWhiteSpace (c : N) : bool :=
  ((9 <=? c) && (c <=? 13) || (c =? 32) || (c =? 160) || (c =? 5760)
   || (8192 <=? c) && (c <=? 8202) || (c =? 8232) || (c =? 8233)
   || (c =? 8239) || (c =? 8287) || (c =? 12288) || (c =? 65279))%N.

Fixpoint trimStart (s : jsstring) : jsstring :=
  match s with
  | [] => []
  | c :: s' => if isWhiteSpace c then trimStart s' else s
  end.

Definition trimEnd (s : jsstring) : jsstring := rev (trimStart (rev s)).

Definition trim (s : jsstring) : jsstring := trimEnd (trimStart s).

(** Truthiness of a string: the empty string is the only falsy one. *)
Definition truthy (s : jsstring) : bool :=
  match s with [] => false | _ :: _ => true end.

(** ** Data model *)

Inductive Role := User | Assistant.

(** [interface Message] of ChatbotPage.tsx; [sources] is optional. *)
Record Message := {
  role : Role;
  content : jsstring;
  sources : option (list jsstring)
}.

(** [interface ChatMessage] of types/index.ts: what the chat endpoint
    answers.  The interface is gone at run time and the page checks nothing:
    [sources] is whatever the body holds, [undefined] ([None]) when the body
    lacks it.  Bodies whose [response] is not a string are outside the
    model. *)
Record ChatMessage := {
  session_id : jsstring;
  message : jsstring;
  response : jsstring;
  response_sources : option (list jsstring);
  timestamp : jsstring
}.

Inductive VoiceStatus := Idle | Connecting | Ready | Error.

#[global] Instance Role_eq_dec : EqDecision Role.
Proof. solve_decision. Defined.
#[global] Instance VoiceStatus_eq_dec : EqDecision VoiceStatus.
Proof. solve_decision. Defined.

(** Values that the modelled code can see thrown: a rejection of the axios
    promise, or an exception of a platform method. *)
Inductive JsError :=
| AxiosNetworkError
| AxiosBadStatus (code : N)
| DOMException (name : jsstring)
| OtherError (description : jsstring).

(** A recognition object is named by its position in the heap of objects
    created so far. *)
Abbreviation Handle := nat (only parsing).

(** The arrow function that [start] assigns to a callback property; it is
    closed over the [recognition] object created by the same call. *)
Inductive Closure := InStart (recognition : Handle).

(** The properties of a SpeechRecognition object that the hook writes. *)
Record SpeechRecognition := {
  lang : jsstring;
  interimResults : bool;
  continuous : bool;
  onstart : option Closure;
  onend : option Closure;
  onerror : option Closure;
  onresult : option Closure
}.

(** [event.results[i]]: a list of alternatives, never empty, and the
    [isFinal] mark. *)
Record SpeechRecognitionAlternative := { transcript : jsstring }.

Record SpeechRecognitionResult := {
  isFinal : bool;
  item0 : SpeechRecognitionAlternative;
  alternatives : list SpeechRecognitionAlternative
}.

Record SpeechRecognitionEvent := {
  resultIndex : nat;
  results : list SpeechRecognitionResult
}.

(** What the host offers: the two constructor names probed by
    [getSpeechRecognition], and [navigator.language]. *)
Record Host := {
  window_SpeechRecognition : bool;
  window_webkitSpeechRecognition : bool;
  navigator_language : jsstring
}.

Inductive PlatformCall := CallStart (h : Handle) | CallStop (h : Handle).

(** ** The state of one mounted ChatbotPage *)

(** Cells declared by the page itself. *)
Record PageCells := {
  messages : list Message;
  input : jsstring;
  loading : bool;
  sessionId : jsstring;
  loadingRef : bool
}.

(** Cells declared by [useVoiceChat]. *)
Record VoiceCells := {
  status : VoiceStatus;
  isRecording : bool;
  error : option jsstring;
  recognitionRef : option Handle;
  isRecordingRef : bool
}.

(** The world around the component: the host, the recognition objects, the
    requests awaiting an answer, a record of every call that left the
    component, and React's books for the page: the [loading] that the last
    committed render saw, and the effect of that render if it has not run
    yet, with the [loading] it captured. *)
Record Env := {
  host : Host;
  objects : list SpeechRecognition;
  inflight : list (jsstring * jsstring);
  backendCalls : list (jsstring * jsstring);
  transcriptions : list (Role * jsstring);
  platformCalls : list PlatformCall;
  consoleErrors : list JsError;
  renderedLoading : bool;
  pendingEffect : option bool
}.

Record World := {
  page : PageCells;
  voice : VoiceCells;
  env : Env
}.

Definition with_page (f : PageCells -> PageCells) (w : World) : World :=
  {| page := f (page w); voice := voice w; env := env w |}.
Definition with_voice (f : VoiceCells -> VoiceCells) (w : World) : World :=
  {| page := page w; voice := f (voice w); env := env w |}.
Definition with_env (f : Env -> Env) (w : World) : World :=
  {| page := page w; voice := voice w; env := f (env w) |}.

Definition put_messages (v : list Message) (p : PageCells) : PageCells :=
  {| messages := v; input := input p; loading := loading p;
     sessionId := sessionId p; loadingRef := loadingRef p |}.
Definition put_input (v : jsstring) (p : PageCells) : PageCells :=
  {| messages := messages p; input := v; loading := loading p;
     sessionId := sessionId p; loadingRef := loadingRef p |}.
Definition put_loading (v : bool) (p : PageCells) : PageCells :=
  {| messages := messages p; input := input p; loading := v;
     sessionId := sessionId p; loadingRef := loadingRef p |}.
Definition put_loadingRef (v : bool) (p : PageCells) : PageCells :=
  {| messages := messages p; input := input p; loading := loading p;
     sessionId := sessionId p; loadingRef := v |}.

Definition put_status (v : VoiceStatus) (c : VoiceCells) : VoiceCells :=
  {| status := v; isRecording := isRecording c; error := error c;
     recognitionRef := recognitionRef c; isRecordingRef := isRecordingRef c |}.
Definition put_isRecording (v : bool) (c : VoiceCells) : VoiceCells :=
  {| status := status c; isRecording := v; error := error c;
     recognitionRef := recognitionRef c; isRecordingRef := isRecordingRef c |}.
Definition put_error (v : option jsstring) (c : VoiceCells) : VoiceCells :=
  {| status := status c; isRecording := isRecording c; error := v;
     recognitionRef := recognitionRef c; isRecordingRef := isRecordingRef c |}.
Definition put_recognitionRef (v : option Handle) (c : VoiceCells) : VoiceCells :=
  {| status := status c; isRecording := isRecording c; error := error c;
     recognitionRef := v; isRecordingRef := isRecordingRef c |}.
Definition put_isRecordingRef (v : bool) (c : VoiceCells) : VoiceCells :=
  {| status := status c; isRecording := isRecording c; error := error c;
     recognitionRef := recognitionRef c; isRecordingRef := v |}.

Definition put_objects (v : list SpeechRecognition) (e : Env) : Env :=
  {| host := host e; objects := v; inflight := inflight e;
     backendCalls := backendCalls e; transcriptions := transcriptions e;
     platformCalls := platformCalls e; consoleErrors := consoleErrors e;
     renderedLoading := renderedLoading e; pendingEffect := pendingEffect e |}.
Definition put_inflight (v : list (jsstring * jsstring)) (e : Env) : Env :=
  {| host := host e; objects := objects e; inflight := v;
     backendCalls := backendCalls e; transcriptions := transcriptions e;
     platformCalls := platformCalls e; consoleErrors := consoleErrors e;
     renderedLoading := renderedLoading e; pendingEffect := pendingEffect e |}.
Definition put_backendCalls (v : list (jsstring * jsstring)) (e : Env) : Env :=
  {| host := host e; objects := objects e; inflight := inflight e;
     backendCalls := v; transcriptions := transcriptions e;
     platformCalls := platformCalls e; consoleErrors := consoleErrors e;
     renderedLoading := renderedLoading e; pendingEffect := pendingEffect e |}.
Definition put_transcriptions (v : list (Role * jsstring)) (e : Env) : Env :=
  {| host := host e; objects := objects e; inflight := inflight e;
     backendCalls := backendCalls e; transcriptions := v;
     platformCalls := platformCalls e; consoleErrors := consoleErrors e;
     renderedLoading := renderedLoading e; pendingEffect := pendingEffect e |}.
Definition put_platformCalls (v : list PlatformCall) (e : Env) : Env :=
  {| host := host e; objects := objects e; inflight := inflight e;
     backendCalls := backendCalls e; transcriptions := transcriptions e;
     platformCalls := v; consoleErrors := consoleErrors e;
     renderedLoading := renderedLoading e; pendingEffect := pendingEffect e |}.
Definition put_consoleErrors (v : list JsError) (e : Env) : Env :=
  {| host := host e; objects := objects e; inflight := inflight e;
     backendCalls := backendCalls e; transcriptions := transcriptions e;
     platformCalls := platformCalls e; consoleErrors := v;
     renderedLoading := renderedLoading e; pendingEffect := pendingEffect e |}.
Definition put_renderedLoading (v : bool) (e : Env) : Env :=
  {| host := host e; objects := objects e; inflight := inflight e;
     backendCalls := backendCalls e; transcriptions := transcriptions e;
     platformCalls := platformCalls e; consoleErrors := consoleErrors e;
     renderedLoading := v; pendingEffect := pendingEffect e |}.
Definition put_pendingEffect (v : option bool) (e : Env) : Env :=
  {| host := host e; objects := objects e; inflight := inflight e;
     backendCalls := backendCalls e; transcriptions := transcriptions e;
     platformCalls := platformCalls e; consoleErrors := consoleErrors e;
     renderedLoading := renderedLoading e; pendingEffect := v |}.

(** ** Handlers: state with exceptions *)

Inductive Completion (A : Type) :=
| Normal (a : A)
| Throw (e : JsError).
Arguments Normal {A} a.
Arguments Throw {A} e.

Definition M (A : Type) : Type := World -> Completion A * World.

Definition ret {A} (a : A) : M A := fun w => (Normal a, w).

Definition bind {A B} (m : M A) (k : A -> M B) : M B :=
  fun w =>
    match m w with
    | (Normal a, w') => k a w'
    | (Throw e, w') => (Throw e, w')
    end.

Definition throw {A} (e : JsError) : M A := fun w => (Throw e, w).

Definition read {A} (f : World -> A) : M A := fun w => (Normal (f w), w).

Definition modify (f : World -> World) : M unit := fun w => (Normal tt, f w).

(** [try { body } catch (err) { handler }] *)
Definition try_catch {A} (body : M A) (handler : JsError -> M A) : M A :=
  fun w =>
    match body w with
    | (Normal a, w') => (Normal a, w')
    | (Throw e, w') => handler e w'
    end.

(** [try { body } finally { final }]: the [finally] block runs on either
    exit and an exception of the body passes through it. *)
Definition try_finally {A} (body : M A) (final : M unit) : M A :=
  fun w =>
    match body w with
    | (c, w') =>
        match final w' with
        | (Normal _, w'') => (c, w'')
        | (Throw e, w'') => (Throw e, w'')
        end
    end.

Declare Scope js_scope.
Delimit Scope js_scope with js.
Notation "x <- m ;; k" := (bind m (fun x => k))
  (at level 20, m at level 99, k at level 200, only parsing) : js_scope.
Notation "m ;; k" := (bind m (fun _ => k))
  (at level 100, k at level 200, only parsing, right associativity) : js_scope.
Open Scope js_scope.

Definition exec {A} (m : M A) (w : World) : World := snd (m w).
Definition outcome {A} (m : M A) (w : World) : Completion A := fst (m w).

(** ** Cells and the outside world as operations *)

Definition setMessages (updater : list Message -> list Message) : M unit :=
  modify (with_page (fun p => put_messages (updater (messages p)) p)).
Definition setInput (v : jsstring) : M unit := modify (with_page (put_input v)).
Definition setLoading (v : bool) : M unit := modify (with_page (put_loading v)).
Definition assign_loadingRef (v : bool) : M unit :=
  modify (with_page (put_loadingRef v)).

Definition setStatus (v : VoiceStatus) : M unit := modify (with_voice (put_status v)).
Definition setIsRecording (v : bool) : M unit :=
  modify (with_voice (put_isRecording v)).
Definition setError (v : option jsstring) : M unit :=
  modify (with_voice (put_error v)).
Definition assign_recognitionRef (v : option Handle) : M unit :=
  modify (with_voice (put_recognitionRef v)).
Definition assign_isRecordingRef (v : bool) : M unit :=
  modify (with_voice (put_isRecordingRef v)).

(** [console.error('Failed to send message:', err)] *)
Definition console_error (err : JsError) : M unit :=
  modify (with_env (fun e => put_consoleErrors (consoleErrors e ++ [err]) e)).

(** [chatbotApi.sendMessage(message, sessionId)] of services/api.ts posts
    [{message, session_id}] to /chatbot/chat and hands back a promise; the
    request joins the ones awaiting an answer. *)
Definition chatbotApi_sendMessage (msg sid : jsstring) : M unit :=
  modify (with_env (fun e =>
    put_inflight (inflight e ++ [(msg, sid)])
      (put_backendCalls (backendCalls e ++ [(msg, sid)]) e))).

(** [await promise]: the value of a fulfilled promise, or its rejection
    thrown. *)
Definition await {A} (settled : Completion A) : M A := fun w => (settled, w).

(** ** ChatbotPage: the conversation pipeline *)

Definition greeting : jsstring :=
  lit "Hello! I'm your insurance assistant. I can help explain insurance terms, answer questions about the claims process, and guide you through your policy. What would you like to know?".

Definition fallback : jsstring :=
  lit "Sorry, I encountered an error. Please try again.".

(** The updater that [appendMessage] passes to [setMessages]. *)
Definition appendMessage_updater (r : Role) (c : jsstring)
    (prev : list Message) : list Message :=
  match last prev with
  | Some l =>
      if bool_decide (role l = r) && bool_decide (content l = c) then prev
      else prev ++ [{| role := r; content := c; sources := None |}]
  | None => prev ++ [{| role := r; content := c; sources := None |}]
  end.

Definition appendMessage (r : Role) (c : jsstring) : M unit :=
  setMessages (appendMessage_updater r c).

(** [sendMessage], from its entry to the [await]: everything that runs in
    the caller's turn. *)
Definition sendMessage (messageText : jsstring) : M unit :=
  let trimmed := trim messageText in
  busy <- read (fun w => loadingRef (page w)) ;;
  if negb (truthy trimmed) || busy then ret tt
  else
    setInput [] ;;
    appendMessage User trimmed ;;
    assign_loadingRef true ;;
    setLoading true ;;
    sid <- read (fun w => sessionId (page w)) ;;
    chatbotApi_sendMessage trimmed sid.

(** [sendMessage], from the [await] on: it runs in a later turn, when the
    promise of [chatbotApi.sendMessage] has settled.  Its completion is the
    settlement of the promise that [sendMessage] returned. *)
Definition sendMessage_resume (settled : Completion ChatMessage) : M unit :=
  try_finally
    (try_catch
       (resp <- await settled ;;
        setMessages (fun prev =>
          prev ++ [{| role := Assistant; content := response resp;
                      sources := response_sources resp |}]))
       (fun err =>
          console_error err ;;
          appendMessage Assistant fallback))
    (assign_loadingRef false ;;
     setLoading false).

(** [handleSend] *)
Definition handleSend : M unit :=
  text <- read (fun w => input (page w)) ;;
  sendMessage text.

(** The [onTranscription] option that the page gives to [useVoiceChat]. *)
Definition page_onTranscription (r : Role) (text : jsstring) : M unit :=
  match r with
  | User => sendMessage text
  | Assistant => appendMessage r text
  end.

(** [useEffect(() => { loadingRef.current = loading }, [loading])]: the
    effect function of one render; [loading] is the value that render
    captured. *)
Definition effect_loadingRef (loading : bool) : M unit :=
  assign_loadingRef loading.

(** React runs the effect that the last commit scheduled, if it is still
    waiting. *)
Definition flush_effect : M unit :=
  waiting <- read (fun w => pendingEffect (env w)) ;;
  match waiting with
  | Some captured =>
      modify (with_env (put_pendingEffect None)) ;;
      effect_loadingRef captured
  | None => ret tt
  end.

(** React renders the page and commits.  Effects of the commit before are
    run first.  The render captures [loading]; its effect is scheduled when
    the dependency [[loading]] differs from what the last commit saw, and it
    is run later, by [flush_effect]. *)
Definition render : M unit :=
  flush_effect ;;
  captured <- read (fun w => loading (page w)) ;;
  before <- read (fun w => renderedLoading (env w)) ;;
  if bool_decide (captured = before) then ret tt
  else
    modify (with_env (fun e =>
      put_pendingEffect (Some captured) (put_renderedLoading captured e))).

(** ** useVoiceChat: the voice session controller *)

Section useVoiceChat.

(** The two optional callbacks of [UseVoiceChatOptions]. *)
Variable onTranscription : option (Role -> jsstring -> M unit).
Variable onStatus : option (VoiceStatus -> option jsstring -> M unit).

(** [onTranscription?.(role, text)]; every call made is recorded. *)
Definition call_onTranscription (r : Role) (text : jsstring) : M unit :=
  match onTranscription with
  | Some f =>
      modify (with_env (fun e =>
        put_transcriptions (transcriptions e ++ [(r, text)]) e)) ;;
      f r text
  | None => ret tt
  end.

(** [onStatus?.(status, message)] *)
Definition call_onStatus (s : VoiceStatus) (msg : option jsstring) : M unit :=
  match onStatus with
  | Some f => f s msg
  | None => ret tt
  end.

(** Writing a property of a recognition object. *)
Definition update_object (h : Handle)
    (f : SpeechRecognition -> SpeechRecognition) : M unit :=
  modify (with_env (fun e => put_objects (alter f h (objects e)) e)).

Definition assign_lang h (v : jsstring) : M unit :=
  update_object h (fun o =>
    {| lang := v; interimResults := interimResults o;
       continuous := continuous o; onstart := onstart o; onend := onend o;
       onerror := onerror o; onresult := onresult o |}).
Definition assign_interimResults h (v : bool) : M unit :=
  update_object h (fun o =>
    {| lang := lang o; interimResults := v;
       continuous := continuous o; onstart := onstart o; onend := onend o;
       onerror := onerror o; onresult := onresult o |}).
Definition assign_continuous h (v : bool) : M unit :=
  update_object h (fun o =>
    {| lang := lang o; interimResults := interimResults o;
       continuous := v; onstart := onstart o; onend := onend o;
       onerror := onerror o; onresult := onresult o |}).
Definition assign_onstart h (v : option Closure) : M unit :=
  update_object h (fun o =>
    {| lang := lang o; interimResults := interimResults o;
       continuous := continuous o; onstart := v; onend := onend o;
       onerror := onerror o; onresult := onresult o |}).
Definition assign_onend h (v : option Closure) : M unit :=
  update_object h (fun o =>
    {| lang := lang o; interimResults := interimResults o;
       continuous := continuous o; onstart := onstart o; onend := v;
       onerror := onerror o; onresult := onresult o |}).
Definition assign_onerror h (v : option Closure) : M unit :=
  update_object h (fun o =>
    {| lang := lang o; interimResults := interimResults o;
       continuous := continuous o; onstart := onstart o; onend := onend o;
       onerror := v; onresult := onresult o |}).
Definition assign_onresult h (v : option Closure) : M unit :=
  update_object h (fun o =>
    {| lang := lang o; interimResults := interimResults o;
       continuous := continuous o; onstart := onstart o; onend := onend o;
       onerror := onerror o; onresult := v |}).

(** [new RecognitionClass()]: a fresh object, no callback attached. *)
Definition new_RecognitionClass : M Handle :=
  fun w =>
    (Normal (length (objects (env w))),
     with_env (fun e =>
       put_objects (objects e ++
         [{| lang := []; interimResults := false; continuous := false;
             onstart := None; onend := None; onerror := None;
             onresult := None |}]) e) w).

(** [recognition.start()] and [recognition.stop()]: the call reaches the
    platform, which may answer with an exception. *)
Definition recognition_start (h : Handle) (thrown : option JsError) : M unit :=
  modify (with_env (fun e =>
    put_platformCalls (platformCalls e ++ [CallStart h]) e)) ;;
  match thrown with Some e => throw e | None => ret tt end.

Definition recognition_stop (h : Handle) (thrown : option JsError) : M unit :=
  modify (with_env (fun e =>
    put_platformCalls (platformCalls e ++ [CallStop h]) e)) ;;
  match thrown with Some e => throw e | None => ret tt end.

(** [getSpeechRecognition]: is a constructor on offer? *)
Definition getSpeechRecognition : M bool :=
  read (fun w => window_SpeechRecognition (host (env w))
                 || window_webkitSpeechRecognition (host (env w))).

Definition stop (stopThrows : option JsError) : M unit :=
  assign_isRecordingRef false ;;
  setIsRecording false ;;
  setStatus Idle ;;
  recognition <- read (fun w => recognitionRef (voice w)) ;;
  assign_recognitionRef None ;;
  match recognition with
  | Some r =>
      assign_onstart r None ;;
      assign_onend r None ;;
      assign_onerror r None ;;
      assign_onresult r None ;;
      try_catch (recognition_stop r stopThrows) (fun _ => ret tt)
  | None => ret tt
  end.

(** [recognition.onstart] *)
Definition recognition_onstart : M unit :=
  setStatus Ready ;;
  call_onStatus Ready None.

(** [recognition.onerror]; [reason] is [event?.error]. *)
Definition recognition_onerror (reason : option jsstring) : M unit :=
  let msg :=
    match reason with
    | Some r => if truthy r then lit "Speech recognition error: " ++ r
                else lit "Speech recognition error"
    | None => lit "Speech recognition error"
    end in
  setError (Some msg) ;;
  setStatus Error ;;
  call_onStatus Error (Some msg) ;;
  assign_isRecordingRef false ;;
  setIsRecording false.

(** [recognition.onend], closed over [recognition]. *)
Definition recognition_onend (recognition : Handle)
    (startThrows : option JsError) : M unit :=
  intent <- read (fun w => isRecordingRef (voice w)) ;;
  if intent then
    setStatus Connecting ;;
    try_catch (recognition_start recognition startThrows)
      (fun _ =>
         let msg := lit "Speech recognition stopped unexpectedly" in
         setError (Some msg) ;;
         setStatus Error ;;
         call_onStatus Error (Some msg) ;;
         assign_isRecordingRef false ;;
         setIsRecording false)
  else
    setStatus Idle ;;
    call_onStatus Idle None.

(** The [for] loop of [recognition.onresult]: [i] runs from
    [event.resultIndex] while [i < event.results.length]; [fuel] bounds the
    number of rounds and [onresult_finalText] gives it the length of
    [results]. *)
Fixpoint onresult_loop (rs : list SpeechRecognitionResult) (fuel i : nat)
    (finalText : jsstring) : jsstring :=
  match fuel with
  | 0 => finalText
  | S fuel' =>
      match rs !! i with
      | Some result =>
          onresult_loop rs fuel' (i + 1)
            (if isFinal result then finalText ++ transcript (item0 result)
             else finalText)
      | None => finalText
      end
  end.

Definition onresult_finalText (event : SpeechRecognitionEvent) : jsstring :=
  onresult_loop (results event) (length (results event)) (resultIndex event) [].

(** [recognition.onresult] *)
Definition recognition_onresult (event : SpeechRecognitionEvent) : M unit :=
  let finalText := trim (onresult_finalText event) in
  if truthy finalText then call_onTranscription User finalText
  else ret tt.

Definition start (startThrows : option JsError) : M unit :=
  current <- read (fun w => recognitionRef (voice w)) ;;
  intent <- read (fun w => isRecordingRef (voice w)) ;;
  if bool_decide (is_Some current) || intent then ret tt
  else
    RecognitionClass <- getSpeechRecognition ;;
    if negb RecognitionClass then
      let msg := lit "Speech recognition is not supported in this browser" in
      setError (Some msg) ;;
      setStatus Error ;;
      call_onStatus Error (Some msg)
    else
      recognition <- new_RecognitionClass ;;
      navlang <- read (fun w => navigator_language (host (env w))) ;;
      assign_lang recognition (if truthy navlang then navlang else lit "en-US") ;;
      assign_interimResults recognition true ;;
      assign_continuous recognition true ;;
      assign_onstart recognition (Some (InStart recognition)) ;;
      assign_onerror recognition (Some (InStart recognition)) ;;
      assign_onend recognition (Some (InStart recognition)) ;;
      assign_onresult recognition (Some (InStart recognition)) ;;
      setError None ;;
      setStatus Connecting ;;
      setIsRecording true ;;
      assign_isRecordingRef true ;;
      assign_recognitionRef (Some recognition) ;;
      try_catch (recognition_start recognition startThrows)
        (fun _ =>
           let msg := lit "Failed to start speech recognition" in
           setError (Some msg) ;;
           setStatus Error ;;
           call_onStatus Error (Some msg) ;;
           assign_isRecordingRef false ;;
           setIsRecording false ;;
           assign_recognitionRef None).

(** ** Signals of the platform *)

Inductive Signal :=
| SigStart
| SigError (reason : option jsstring)
| SigEnd (startThrows : option JsError)
| SigResult (event : SpeechRecognitionEvent).

(** The platform fires a signal on object [h]: the callback attached to the
    matching property runs; a property holding [null] runs nothing. *)
Definition dispatch (h : Handle) (sig : Signal) : M unit :=
  objs <- read (fun w => objects (env w)) ;;
  match objs !! h with
  | None => ret tt
  | Some o =>
      match sig with
      | SigStart =>
          match onstart o with
          | Some (InStart _) => recognition_onstart
          | None => ret tt
          end
      | SigError reason =>
          match onerror o with
          | Some (InStart _) => recognition_onerror reason
          | None => ret tt
          end
      | SigEnd startThrows =>
          match onend o with
          | Some (InStart recognition) =>
              recognition_onend recognition startThrows
          | None => ret tt
          end
      | SigResult event =>
          match onresult o with
          | Some (InStart _) => recognition_onresult event
          | None => ret tt
          end
      end
  end.

End useVoiceChat.

(** ** The mounted page: the hook wired to the pipeline *)

(** [useVoiceChat({ sessionId, onTranscription })]: the page passes its
    transcription callback and no [onStatus].  Of the two callbacks [start]
    itself calls [onStatus] only; [onTranscription] is called by the
    [onresult] closure, which [dispatch] runs. *)
Definition startVoice : option JsError -> M unit :=
  start None.
Definition stopVoice : option JsError -> M unit := stop.
Definition platform_signal : Handle -> Signal -> M unit :=
  dispatch (Some page_onTranscription) None.

(** The microphone button: [onClick={voiceActive ? stopVoice : startVoice}]
    with [voiceActive = voiceStatus === 'ready' || voiceStatus === 'connecting']. *)
Definition voiceActive (s : VoiceStatus) : bool :=
  bool_decide (s = Ready) || bool_decide (s = Connecting).

Definition clickVoice (thrown : option JsError) : M unit :=
  s <- read (fun w => status (voice w)) ;;
  if voiceActive s then stopVoice thrown else startVoice thrown.

(** The backend settles the [i]-th pending request: the suspended
    [sendMessage] goes on. *)
Definition backend_settles (i : nat) (settled : Completion ChatMessage) : M unit :=
  pending <- read (fun w => inflight (env w)) ;;
  match pending !! i with
  | Some _ =>
      modify (with_env (fun e => put_inflight (delete i (inflight e)) e)) ;;
      sendMessage_resume settled
  | None => ret tt
  end.

(** Everything that can happen to a mounted page.  [CallStartVoice] and
    [CallStopVoice] are the hook's [start] and [stop] called by any owner
    (the button, or the unmount clean-up [useEffect(() => () => stop())]). *)
Inductive Event :=
| InputChange (value : jsstring)
| ClickSend
| ClickVoice (thrown : option JsError)
| CallStartVoice (thrown : option JsError)
| CallStopVoice (thrown : option JsError)
| PlatformSignal (h : Handle) (sig : Signal)
| BackendSettles (i : nat) (settled : Completion ChatMessage)
| Render
| RunEffect.

Definition handler (e : Event) : M unit :=
  match e with
  | InputChange value => setInput value
  | ClickSend => handleSend
  | ClickVoice thrown => clickVoice thrown
  | CallStartVoice thrown => startVoice thrown
  | CallStopVoice thrown => stopVoice thrown
  | PlatformSignal h sig => platform_signal h sig
  | BackendSettles i settled => backend_settles i settled
  | Render => render
  | RunEffect => flush_effect
  end.

Definition step (e : Event) (w : World) : World := exec (handler e) w.

Fixpoint run (evs : list Event) (w : World) : World :=
  match evs with
  | [] => w
  | e :: evs' => run evs' (step e w)
  end.

(** The page once mounted, its mount effects run; [now] is [Date.now()] at
    the first render. *)
Definition initial (h : Host) (now : N) : World :=
  {| page :=
       {| messages := [{| role := Assistant; content := greeting; sources := None |}];
          input := [];
          loading := false;
          sessionId := lit "session-" ++ lit (pretty now);
          loadingRef := false |};
     voice :=
       {| status := Idle; isRecording := false; error := None;
          recognitionRef := None; isRecordingRef := false |};
     env :=
       {| host := h; objects := []; inflight := []; backendCalls := [];
          transcriptions := []; platformCalls := []; consoleErrors := [];
          renderedLoading := false; pendingEffect := None |} |}.

Definition reachable (w : World) : Prop :=
  exists h now evs, w = run evs (initial h now).

(** A host with speech recognition, and one without. *)
Definition chrome : Host :=
  {| window_SpeechRecognition := false; window_webkitSpeechRecognition := true;
     navigator_language := lit "en-GB" |}.
Definition bare_host : Host :=
  {| window_SpeechRecognition := false; window_webkitSpeechRecognition := false;
     navigator_language := lit "en-US" |}.

(** ** Vocabulary of the statements *)

(** A recognition object with its four callback properties set to [null]. *)
Definition detached (o : SpeechRecognition) : SpeechRecognition :=
  {| lang := lang o; interimResults := interimResults o;
     continuous := continuous o; onstart := None; onend := None;
     onerror := None; onresult := None |}.

Definition is_detached (o : SpeechRecognition) : Prop :=
  onstart o = None /\ onend o = None /\ onerror o = None /\ onresult o = None.

(** The object that [start] leaves behind: configured, and the four
    closures of that call attached. *)
Definition configured (h : Handle) (navlang : jsstring) : SpeechRecognition :=
  {| lang := if truthy navlang then navlang else lit "en-US";
     interimResults := true; continuous := true;
     onstart := Some (InStart h); onend := Some (InStart h);
     onerror := Some (InStart h); onresult := Some (InStart h) |}.

Definition is_attached (h : Handle) (o : SpeechRecognition) : Prop :=
  onstart o = Some (InStart h) /\ onend o = Some (InStart h) /\
  onerror o = Some (InStart h) /\ onresult o = Some (InStart h).

(** The message that [recognition.onerror] builds from [event?.error]. *)
Definition error_message (reason : option jsstring) : jsstring :=
  match reason with
  | Some r => if truthy r then lit "Speech recognition error: " ++ r
              else lit "Speech recognition error"
  | None => lit "Speech recognition error"
  end.

(** The text of a result signal by its meaning: the best transcripts of the
    finalized results from [resultIndex] on, joined in order. *)
Definition finalized_text (event : SpeechRecognitionEvent) : jsstring :=
  concat (map (fun r => transcript (item0 r))
              (filter (fun r => isFinal r = true)
                      (drop (resultIndex event) (results event)))).

(** Does the host offer a recognition constructor? *)
Definition supported (h : Host) : bool :=
  window_SpeechRecognition h || window_webkitSpeechRecognition h.

(** Invariant of the voice controller: the [isRecording] state mirrors the
    ref; listening intent implies a current handle; the current handle names
    an object that carries the four closures of its own [start] call; every
    callback property holds [null] or a closure over its own object; and
    objects exist only on a host that offers the constructor. *)
Definition own_closure (h : Handle) (c : option Closure) : Prop :=
  c = None \/ c = Some (InStart h).

Definition closures_ok (h : Handle) (o : SpeechRecognition) : Prop :=
  own_closure h (onstart o) /\ own_closure h (onend o) /\
  own_closure h (onerror o) /\ own_closure h (onresult o).

Definition VoiceInv (w : World) : Prop :=
  isRecording (voice w) = isRecordingRef (voice w) /\
  (isRecordingRef (voice w) = true -> is_Some (recognitionRef (voice w))) /\
  (forall h, recognitionRef (voice w) = Some h ->
     exists o, objects (env w) !! h = Some o /\ is_attached h o) /\
  (forall h o, objects (env w) !! h = Some o ->
     closures_ok h o /\ supported (host (env w)) = true).

(** The pipeline's cells apart from the text box. *)
Definition exchange_view (w : World) :=
  (messages (page w), loading (page w), sessionId (page w),
   loadingRef (page w), inflight (env w), backendCalls (env w),
   consoleErrors (env w)).

(** Emission of a result signal as the specification words it: one call per
    finalized utterance, each trimmed, the empty ones left out. *)
Definition per_utterance_emissions (event : SpeechRecognitionEvent)
    : list (Role * jsstring) :=
  map (fun t => (User, t))
    (filter (fun t => t <> [])
       (map (fun r => trim (transcript (item0 r)))
          (filter (fun r => isFinal r = true) (results event)))).

Definition assistant_reply (resp : ChatMessage) : Message :=
  {| role := Assistant; content := response resp;
     sources := response_sources resp |}.

Definition user_entry (t : jsstring) : Message :=
  {| role := User; content := t; sources := None |}.

Definition fallback_entry : Message :=
  {| role := Assistant; content := fallback; sources := None |}.

(** The parts of the world that belong to each component. *)
Definition pipeline_view (w : World) :=
  (page w, inflight (env w), backendCalls (env w), consoleErrors (env w)).

Definition controller_view (w : World) :=
  (voice w, objects (env w), platformCalls (env w), host (env w)).

Definition is_settlement (e : Event) : bool :=
  match e with BackendSettles _ _ => true | _ => false end.

Definition is_stop (e : Event) : bool :=
  match e with
  | CallStopVoice _ => true
  | ClickVoice _ => true
  | _ => false
  end.

(** ** Sample worlds and inputs *)

Definition final_result (t : string) : SpeechRecognitionResult :=
  {| isFinal := true; item0 := {| transcript := lit t |}; alternatives := [] |}.

Definition interim_result (t : string) : SpeechRecognitionResult :=
  {| isFinal := false; item0 := {| transcript := lit t |}; alternatives := [] |}.

(** One result signal that carries two finalized utterances. *)
Definition two_finals : SpeechRecognitionEvent :=
  {| resultIndex := 0;
     results := [final_result "hello "; interim_result "wor"; final_result "world"] |}.

Definition one_final : SpeechRecognitionEvent :=
  {| resultIndex := 1;
     results := [final_result "hello"; final_result " what is a copay "; interim_result "and"] |}.

Definition deductible_reply : ChatMessage :=
  {| session_id := lit "session-0";
     message := lit "What is a deductible?";
     response := lit "A deductible is...";
     response_sources := Some [lit "policy-glossary"];
     timestamp := lit "2026-01-01T00:00:00" |}.

(** A result signal with one finalized utterance. *)
Definition heard (t : string) : SpeechRecognitionEvent :=
  {| resultIndex := 0; results := [final_result t] |}.

Definition reply_to (t : string) : ChatMessage :=
  {| session_id := lit "session-0"; message := []; response := lit t;
     response_sources := Some []; timestamp := [] |}.


(** A run in which an effect runs late.  A first utterance is answered; the
    render after the answer captures [loading = false] and schedules the
    effect; a second utterance is recognized and sent before React runs that
    effect; the effect then lowers the ref under the pending request. *)
Definition second_submitted : list Event :=
  [ PlatformSignal 0 (SigResult (heard "first"));
    Render;
    RunEffect;
    BackendSettles 0 (Normal (reply_to "one"));
    Render;
    PlatformSignal 0 (SigResult (heard "second")) ].

Definition late_effect_run : list Event :=
  second_submitted ++ [RunEffect].

(** The page just opened; the microphone on and acknowledged; a question
    awaiting its answer; and a host without speech recognition after a
    press of the microphone button. *)
Definition fresh : World := initial chrome 0.

Definition listening : World :=
  run [ClickVoice None; PlatformSignal 0 SigStart] (initial chrome 0).


Definition unsupported_world : World :=
  run [ClickVoice None] (initial bare_host 0).

(** ** More of the page, and the widget *)

(** [voiceLabel] of ChatbotPage: the text beside the status dot. *)
Definition voiceLabel (s : VoiceStatus) : jsstring :=
  if bool_decide (s = Ready) then lit "Listening"
  else if bool_decide (s = Connecting) then lit "Connecting"
  else lit "Off".

(** The effect that ChatbotWidget adds to the page's code:
    [if (!isOpen && (voiceStatus === 'ready' || voiceStatus === 'connecting')) stopVoice()]. *)
Definition widget_voice_effect (isOpen : bool) (thrown : option JsError) : M unit :=
  voiceStatus <- read (fun w => status (voice w)) ;;
  if negb isOpen
     && (bool_decide (voiceStatus = Ready) || bool_decide (voiceStatus = Connecting))
  then stopVoice thrown
  else ret tt.

(** ** Vocabulary of the further statements *)

(** A user entry as [sendMessage] writes it: non-empty, trimmed, without
    sources.  Entries of the assistant are not constrained. *)
Definition entry_ok (m : Message) : Prop :=
  role m = User ->
  content m <> [] /\ trim (content m) = content m /\ sources m = None.

(** A backend call as [sendMessage] issues it: the session id, a non-empty
    trimmed text, and that text is the content of a user entry of the
    transcript. *)
Definition call_ok (sid : jsstring) (ms : list Message)
    (c : jsstring * jsstring) : Prop :=
  snd c = sid /\ fst c <> [] /\ trim (fst c) = fst c /\
  exists m, In m ms /\ role m = User /\ content m = fst c.

(** The guard of [appendMessage] as a predicate on the transcript: there is
    a last entry, and it has this role and this content. *)
Definition ends_with (r : Role) (c : jsstring) (ms : list Message) : Prop :=
  exists l, last ms = Some l /\ role l = r /\ content l = c.

(** No user entry repeats the content of a user entry right before it. *)
Definition no_repeat (ms : list Message) : Prop :=
  forall i a b, ms !! i = Some a -> ms !! S i = Some b ->
    role a = User -> role b = User -> content a <> content b.


(** The events of React's scheduler. *)
Definition is_scheduler (e : Event) : Prop := e = Render \/ e = RunEffect.

(** A well-formed emission of the controller. *)
Definition emission_ok (p : Role * jsstring) : Prop :=
  fst p = User /\ snd p <> [] /\ trim (snd p) = snd p.

(** Listening intent shows on the button. *)
Definition ActiveInv (w : World) : Prop :=
  isRecordingRef (voice w) = true -> voiceActive (status (voice w)) = true.



(** Events that reach the platform. *)
Definition may_call_platform (e : Event) : bool :=
  match e with
  | ClickVoice _ | CallStartVoice _ | CallStopVoice _ => true
  | PlatformSignal _ (SigEnd _) => true
  | _ => false
  end.

(** Events handled by the page's own code, and result signals. *)
Definition of_pipeline (e : Event) : bool :=
  match e with
  | InputChange _ | ClickSend | BackendSettles _ _ | Render | RunEffect => true
  | _ => false
  end.

Definition is_result (e : Event) : bool :=
  match e with
  | PlatformSignal _ (SigResult _) => true
  | _ => false
  end.

(** On a host without speech recognition nothing of the platform exists. *)
Definition UnsupportedInv (w : World) : Prop :=
  supported (host (env w)) = false ->
  objects (env w) = [] /\ platformCalls (env w) = [] /\
  transcriptions (env w) = [] /\
  recognitionRef (voice w) = None /\ isRecordingRef (voice w) = false.

(** The platform ends a session and acknowledges the restart, again and
    again: start and (accepted) ended signals of one object. *)
Definition is_ended (e : Event) : bool :=
  match e with
  | PlatformSignal _ (SigEnd _) => true
  | _ => false
  end.

Definition heartbeat (h : Handle) (e : Event) : Prop :=
  e = PlatformSignal h SigStart \/ e = PlatformSignal h (SigEnd None).

(** * Properties *)

(** ** Trimming *)

Lemma trimStart_nil_iff (s : jsstring) :
  trimStart s = [] <-> Forall (fun c => isWhiteSpace c = true) s.
Proof.
  induction s as [|c s IH]; simpl.
  - split; [constructor | reflexivity].
  - destruct (isWhiteSpace c) eqn:Hc.
    + rewrite IH. split; [by constructor | by inversion 1].
    + split; [discriminate | inversion 1; congruence].
Qed.

Lemma trimStart_head (s : jsstring) c s' :
  trimStart s = c :: s' -> isWhiteSpace c = false.
Proof.
  induction s as [|d s IH]; simpl; [discriminate|].
  destruct (isWhiteSpace d) eqn:Hd; [exact IH|].
  intros [= -> _]. exact Hd.
Qed.

Lemma trim_nil_iff (s : jsstring) :
  trim s = [] <-> Forall (fun c => isWhiteSpace c = true) s.
Proof.
  rewrite <- trimStart_nil_iff. unfold trim, trimEnd.
  split.
  - intros H. apply (f_equal (@rev N)) in H. rewrite rev_involutive in H.
    simpl in H. apply trimStart_nil_iff in H.
    destruct (trimStart s) as [|c s'] eqn:Hs; [reflexivity|].
    apply trimStart_head in Hs.
    apply Forall_forall with (x := c) in H; [congruence|].
    apply list_elem_of_In, in_rev. rewrite rev_involutive. by left.
  - intros ->. reflexivity.
Qed.

Lemma truthy_true (s : jsstring) : truthy s = true <-> s <> [].
Proof. destruct s; simpl; split; congruence. Qed.

(** ** The model at work *)

Example trim_strips_both_ends :
  trim ([9; 32] ++ lit "hi  there" ++ [160; 10; 12288])%N = lit "hi  there".
Proof. reflexivity. Qed.

Example trim_blank : trim [32; 9; 13; 10; 8239; 65279]%N = [].
Proof. reflexivity. Qed.

(** Utterance typed and sent, backend answers with one source. *)
Example end_to_end_success :
  messages (page (run [InputChange (lit "What is a deductible?"); ClickSend;
                       BackendSettles 0 (Normal deductible_reply)] fresh)) =
  [ {| role := Assistant; content := greeting; sources := None |};
    {| role := User; content := lit "What is a deductible?"; sources := None |};
    {| role := Assistant; content := lit "A deductible is...";
       sources := Some [lit "policy-glossary"] |} ].
Proof. vm_compute. reflexivity. Qed.

(** Backend rejects: the transcript holds the fallback, the controller is as
    it was. *)
Example end_to_end_failure :
  let w := run [PlatformSignal 0 (SigResult one_final);
                BackendSettles 0 (Throw AxiosNetworkError)] listening in
  messages (page w) =
    [ {| role := Assistant; content := greeting; sources := None |};
      {| role := User; content := lit "what is a copay"; sources := None |};
      fallback_entry ] /\
  voice w = voice listening.
Proof. vm_compute. split; reflexivity. Qed.

(** Restart on end: connecting, ready, connecting again after the platform
    ends the session, ready again, and so on. *)
Example restart_on_end :
  map (fun evs => status (voice (run evs fresh)))
    [ [ClickVoice None];
      [ClickVoice None; PlatformSignal 0 SigStart];
      [ClickVoice None; PlatformSignal 0 SigStart; PlatformSignal 0 (SigEnd None)];
      [ClickVoice None; PlatformSignal 0 SigStart; PlatformSignal 0 (SigEnd None);
       PlatformSignal 0 SigStart];
      [ClickVoice None; PlatformSignal 0 SigStart; PlatformSignal 0 (SigEnd None);
       PlatformSignal 0 SigStart; PlatformSignal 0 (SigEnd None)] ] =
  [Connecting; Ready; Connecting; Ready; Connecting].
Proof. vm_compute. reflexivity. Qed.

(** A spoken utterance reaches the backend with the session id. *)
Example voice_reaches_backend :
  backendCalls (env (step (PlatformSignal 0 (SigResult one_final)) listening)) =
  [(lit "what is a copay", lit "session-0")].
Proof. vm_compute. reflexivity. Qed.

(** ** The handlers in closed form *)

(** Symbolic execution of a handler: call-by-need evaluation of the monad,
    of the cell operations and of the record projections, leaving list
    operations and literals as they are. *)
Ltac js_eval :=
  lazy beta iota zeta delta
    [ bind ret read modify throw try_catch try_finally await exec outcome
      setMessages setInput setLoading assign_loadingRef setStatus
      setIsRecording setError assign_recognitionRef assign_isRecordingRef
      console_error chatbotApi_sendMessage call_onStatus call_onTranscription
      recognition_start recognition_stop getSpeechRecognition
      new_RecognitionClass update_object assign_lang assign_interimResults
      assign_continuous assign_onstart assign_onend assign_onerror
      assign_onresult
      with_page with_voice with_env put_messages put_input put_loading
      put_loadingRef put_status put_isRecording put_error put_recognitionRef
      put_isRecordingRef put_objects put_inflight put_backendCalls
      put_transcriptions put_platformCalls put_consoleErrors
      put_renderedLoading put_pendingEffect effect_loadingRef
      page voice env messages input loading sessionId loadingRef
      status isRecording error recognitionRef isRecordingRef
      host objects inflight backendCalls transcriptions platformCalls
      consoleErrors renderedLoading pendingEffect fst snd ] in *.

Ltac crush_world w :=
  destruct w as [[? ? ? ? ?] [? ? ? ? ?] [? ? ? ? ? ? ? ? ?]]; js_eval.

(** What [appendMessage] does to the transcript. *)
Lemma appendMessage_updater_dup r c prev l :
  last prev = Some l -> role l = r -> content l = c ->
  appendMessage_updater r c prev = prev.
Proof.
  intros Hl Hr Hc. unfold appendMessage_updater. rewrite Hl.
  by rewrite !bool_decide_eq_true_2.
Qed.

Lemma appendMessage_updater_new r c prev :
  (forall l, last prev = Some l -> role l = r -> content l <> c) ->
  appendMessage_updater r c prev =
  prev ++ [{| role := r; content := c; sources := None |}].
Proof.
  intros H. unfold appendMessage_updater.
  destruct (last prev) as [l|] eqn:Hl; [|reflexivity].
  destruct (bool_decide (role l = r)) eqn:Hr; [|reflexivity].
  apply bool_decide_eq_true in Hr.
  rewrite bool_decide_eq_false_2; [reflexivity|]. by apply H.
Qed.


(** The single-flight and empty-text guard of [sendMessage]. *)
Lemma sendMessage_dropped text w :
  trim text = [] \/ loadingRef (page w) = true ->
  sendMessage text w = (Normal tt, w).
Proof.
  intros H. unfold sendMessage, bind, read, ret.
  destruct H as [-> | ->]; [reflexivity|].
  by rewrite orb_true_r.
Qed.

Lemma sendMessage_admitted text w :
  trim text <> [] -> loadingRef (page w) = false ->
  sendMessage text w =
  (Normal tt,
   {| page :=
        {| messages := appendMessage_updater User (trim text) (messages (page w));
           input := []; loading := true; sessionId := sessionId (page w);
           loadingRef := true |};
      voice := voice w;
      env :=
        put_inflight (inflight (env w) ++ [(trim text, sessionId (page w))])
          (put_backendCalls
             (backendCalls (env w) ++ [(trim text, sessionId (page w))]) (env w)) |}).
Proof.
  intros Ht Hl. apply truthy_true in Ht.
  unfold sendMessage, appendMessage. crush_world w. subst.
  rewrite Ht. reflexivity.
Qed.

(** The continuation of [sendMessage] on either settlement. *)
Lemma sendMessage_resume_fulfilled resp w :
  sendMessage_resume (Normal resp) w =
  (Normal tt,
   with_page (fun p =>
     {| messages := messages p ++
          [{| role := Assistant; content := response resp;
              sources := response_sources resp |}];
        input := input p; loading := false; sessionId := sessionId p;
        loadingRef := false |}) w).
Proof. unfold sendMessage_resume. crush_world w. reflexivity. Qed.

Lemma sendMessage_resume_rejected err w :
  sendMessage_resume (Throw err) w =
  (Normal tt,
   {| page :=
        {| messages := appendMessage_updater Assistant fallback (messages (page w));
           input := input (page w); loading := false;
           sessionId := sessionId (page w); loadingRef := false |};
      voice := voice w;
      env := put_consoleErrors (consoleErrors (env w) ++ [err]) (env w) |}).
Proof. unfold sendMessage_resume, appendMessage. crush_world w. reflexivity. Qed.

(** [stop] in closed form, with and without a current handle. *)
Lemma stop_no_handle thrown w :
  recognitionRef (voice w) = None ->
  stop thrown w =
  (Normal tt,
   with_voice (fun c =>
     {| status := Idle; isRecording := false; error := error c;
        recognitionRef := None; isRecordingRef := false |}) w).
Proof. intros H. unfold stop. crush_world w. subst. reflexivity. Qed.

Lemma stop_handle thrown w h :
  recognitionRef (voice w) = Some h ->
  stop thrown w =
  (Normal tt,
   {| page := page w;
      voice :=
        {| status := Idle; isRecording := false; error := error (voice w);
           recognitionRef := None; isRecordingRef := false |};
      env :=
        put_platformCalls (platformCalls (env w) ++ [CallStop h])
          (put_objects (alter detached h (objects (env w))) (env w)) |}).
Proof.
  intros Hr.
  unfold stop, assign_onstart, assign_onend, assign_onerror, assign_onresult,
    update_object.
  destruct thrown; crush_world w; subst;
    rewrite !list_alter_alter_eq; reflexivity.
Qed.

(** [start] in closed form, case by case. *)
Lemma start_busy cb thrown w :
  is_Some (recognitionRef (voice w)) \/ isRecordingRef (voice w) = true ->
  start cb thrown w = (Normal tt, w).
Proof.
  intros H. unfold start, bind, read, ret.
  destruct H as [H | ->].
  - by rewrite bool_decide_eq_true_2.
  - by rewrite orb_true_r.
Qed.

Lemma start_unsupported thrown w :
  recognitionRef (voice w) = None -> isRecordingRef (voice w) = false ->
  window_SpeechRecognition (host (env w))
    || window_webkitSpeechRecognition (host (env w)) = false ->
  startVoice thrown w =
  (Normal tt,
   with_voice (fun c =>
     put_status Error
       (put_error
          (Some (lit "Speech recognition is not supported in this browser")) c))
     w).
Proof.
  intros Hr Hi Hc. unfold startVoice, start. crush_world w. subst.
  rewrite bool_decide_eq_false_2 by (by intros [? ?]). cbn.
  rewrite Hc. reflexivity.
Qed.

Lemma start_created thrown w :
  recognitionRef (voice w) = None -> isRecordingRef (voice w) = false ->
  window_SpeechRecognition (host (env w))
    || window_webkitSpeechRecognition (host (env w)) = true ->
  startVoice thrown w =
  (Normal tt,
   let h := length (objects (env w)) in
   {| page := page w;
      voice :=
        match thrown with
        | None =>
            {| status := Connecting; isRecording := true; error := None;
               recognitionRef := Some h; isRecordingRef := true |}
        | Some _ =>
            {| status := Error; isRecording := false;
               error := Some (lit "Failed to start speech recognition");
               recognitionRef := None; isRecordingRef := false |}
        end;
      env :=
        put_platformCalls (platformCalls (env w) ++ [CallStart h])
          (put_objects
             (objects (env w) ++
                [configured h (navigator_language (host (env w)))])
             (env w)) |}).
Proof.
  intros Hr Hi Hc.
  unfold startVoice, start, new_RecognitionClass, assign_lang,
    assign_interimResults, assign_continuous, assign_onstart, assign_onend,
    assign_onerror, assign_onresult, update_object.
  destruct thrown; crush_world w; subst;
    rewrite bool_decide_eq_false_2 by (by intros [? ?]); cbn;
    rewrite Hc; cbn; rewrite !list_alter_alter_eq;
    rewrite (alter_app_r_alt _ _ _ (length objects0)) by done;
    rewrite Nat.sub_diag; reflexivity.
Qed.

(** The closures of [start], as the page gets them: no [onStatus]. *)
Lemma onstart_spec w :
  recognition_onstart None w = (Normal tt, with_voice (put_status Ready) w).
Proof. unfold recognition_onstart. crush_world w. reflexivity. Qed.

Lemma onerror_spec reason w :
  recognition_onerror None reason w =
  (Normal tt,
   with_voice (fun c =>
     {| status := Error; isRecording := false;
        error := Some (error_message reason);
        recognitionRef := recognitionRef c; isRecordingRef := false |}) w).
Proof. unfold recognition_onerror. crush_world w. reflexivity. Qed.

Lemma onend_idle r thrown w :
  isRecordingRef (voice w) = false ->
  recognition_onend None r thrown w = (Normal tt, with_voice (put_status Idle) w).
Proof.
  intros H. unfold recognition_onend. crush_world w. subst. reflexivity.
Qed.

Lemma onend_restart r w :
  isRecordingRef (voice w) = true ->
  recognition_onend None r None w =
  (Normal tt,
   with_env (fun e => put_platformCalls (platformCalls e ++ [CallStart r]) e)
     (with_voice (put_status Connecting) w)).
Proof.
  intros H. unfold recognition_onend. crush_world w. subst. reflexivity.
Qed.

Lemma onend_restart_fails r err w :
  isRecordingRef (voice w) = true ->
  recognition_onend None r (Some err) w =
  (Normal tt,
   with_env (fun e => put_platformCalls (platformCalls e ++ [CallStart r]) e)
     (with_voice (fun c =>
        {| status := Error; isRecording := false;
           error := Some (lit "Speech recognition stopped unexpectedly");
           recognitionRef := recognitionRef c; isRecordingRef := false |}) w)).
Proof.
  intros H. unfold recognition_onend. crush_world w. subst. reflexivity.
Qed.

(** The loop of [onresult] computes the joined finalized transcripts. *)
Lemma onresult_loop_spec rs fuel i acc :
  length rs - i <= fuel ->
  onresult_loop rs fuel i acc =
  acc ++ concat (map (fun r => transcript (item0 r))
                     (filter (fun r => isFinal r = true) (drop i rs))).
Proof.
  revert i acc. induction fuel as [|fuel IH]; intros i acc Hf; simpl.
  - rewrite drop_ge by lia. simpl. by rewrite app_nil_r.
  - destruct (rs !! i) as [r|] eqn:Hr.
    + pose proof (lookup_lt_Some _ _ _ Hr).
      rewrite IH by lia.
      rewrite (drop_S _ _ _ Hr), Nat.add_1_r, filter_cons.
      destruct (isFinal r).
      * rewrite decide_True by done. simpl. by rewrite app_assoc.
      * rewrite decide_False by done. reflexivity.
    + apply lookup_ge_None in Hr. rewrite drop_ge by lia. simpl.
      by rewrite app_nil_r.
Qed.

Lemma onresult_finalText_spec event :
  onresult_finalText event = finalized_text event.
Proof.
  unfold onresult_finalText, finalized_text.
  rewrite onresult_loop_spec by lia. reflexivity.
Qed.

Lemma onresult_spec event w :
  recognition_onresult (Some page_onTranscription) event w =
  let t := trim (finalized_text event) in
  if truthy t then
    sendMessage t
      (with_env (fun e => put_transcriptions (transcriptions e ++ [(User, t)]) e) w)
  else (Normal tt, w).
Proof.
  unfold recognition_onresult. rewrite onresult_finalText_spec. cbn zeta.
  destruct (truthy (trim (finalized_text event))); [|reflexivity].
  unfold call_onTranscription, page_onTranscription, bind, modify. reflexivity.
Qed.

(** A signal on an object without the matching callback runs nothing. *)
Lemma dispatch_unknown cbT cbS h sig w :
  objects (env w) !! h = None -> dispatch cbT cbS h sig w = (Normal tt, w).
Proof. intros H. unfold dispatch, bind, read, ret. by rewrite H. Qed.

Lemma dispatch_detached cbT cbS h sig w o :
  objects (env w) !! h = Some o -> is_detached o ->
  dispatch cbT cbS h sig w = (Normal tt, w).
Proof.
  intros H (H1 & H2 & H3 & H4). unfold dispatch, bind, read, ret. rewrite H.
  destruct sig; by rewrite ?H1, ?H2, ?H3, ?H4.
Qed.

(** ** Each component keeps to its own cells *)

Lemma stop_pipeline_view thrown w :
  pipeline_view (exec (stop thrown) w) = pipeline_view w.
Proof.
  unfold exec. destruct (recognitionRef (voice w)) as [h|] eqn:Hr.
  - rewrite (stop_handle _ _ h) by done. reflexivity.
  - rewrite stop_no_handle by done. reflexivity.
Qed.

Lemma start_pipeline_view thrown w :
  pipeline_view (exec (startVoice thrown) w) = pipeline_view w.
Proof.
  unfold exec.
  destruct (recognitionRef (voice w)) as [h|] eqn:Hr.
  { unfold startVoice. rewrite start_busy by (left; by eexists). reflexivity. }
  destruct (isRecordingRef (voice w)) eqn:Hi.
  { unfold startVoice. rewrite start_busy by (by right). reflexivity. }
  destruct (window_SpeechRecognition (host (env w))
            || window_webkitSpeechRecognition (host (env w))) eqn:Hc.
  - rewrite start_created by done. reflexivity.
  - rewrite start_unsupported by done. reflexivity.
Qed.


Lemma sendMessage_controller_view text w :
  controller_view (exec (sendMessage text) w) = controller_view w /\
  transcriptions (env (exec (sendMessage text) w)) = transcriptions (env w).
Proof.
  unfold exec.
  destruct (decide (trim text = [])) as [Ht|Ht];
    [by rewrite sendMessage_dropped by (by left)|].
  destruct (loadingRef (page w)) eqn:Hl;
    [by rewrite sendMessage_dropped by (by right)|].
  by rewrite sendMessage_admitted.
Qed.

Lemma settles_controller_view i settled w :
  controller_view (exec (backend_settles i settled) w) = controller_view w.
Proof.
  unfold exec, backend_settles, bind, read, modify, ret.
  destruct (inflight (env w) !! i); [|reflexivity].
  destruct settled;
    [rewrite sendMessage_resume_fulfilled | rewrite sendMessage_resume_rejected];
    reflexivity.
Qed.

(** React's scheduler touches the ref and its own books, nothing else. *)
Lemma flush_effect_spec w :
  flush_effect w =
  (Normal tt,
   match pendingEffect (env w) with
   | Some captured =>
       with_page (put_loadingRef captured) (with_env (put_pendingEffect None) w)
   | None => w
   end).
Proof.
  unfold flush_effect, bind, read, ret. destruct (pendingEffect (env w)); done.
Qed.

Lemma scheduler_frame (m : M unit) w :
  m = render \/ m = flush_effect ->
  controller_view (exec m w) = controller_view w /\
  transcriptions (env (exec m w)) = transcriptions (env w) /\
  messages (page (exec m w)) = messages (page w) /\
  input (page (exec m w)) = input (page w) /\
  loading (page (exec m w)) = loading (page w) /\
  sessionId (page (exec m w)) = sessionId (page w) /\
  inflight (env (exec m w)) = inflight (env w) /\
  backendCalls (env (exec m w)) = backendCalls (env w) /\
  consoleErrors (env (exec m w)) = consoleErrors (env w).
Proof.
  intros [-> | ->]; unfold exec, render, bind, read, ret, modify;
    rewrite flush_effect_spec; destruct (pendingEffect (env w));
    cbn; try done; destruct (bool_decide _); done.
Qed.

Lemma render_controller_view w :
  controller_view (exec render w) = controller_view w.
Proof. apply scheduler_frame. by left. Qed.

Lemma flush_controller_view w :
  controller_view (exec flush_effect w) = controller_view w.
Proof. apply scheduler_frame. by right. Qed.

(** [sendMessage] reads and writes the pipeline's cells only. *)
Lemma sendMessage_pipeline_ext text w w' :
  pipeline_view w = pipeline_view w' ->
  pipeline_view (exec (sendMessage text) w) =
  pipeline_view (exec (sendMessage text) w').
Proof.
  unfold pipeline_view at 1 2. intros [= Hp Hi Hb Hc]. unfold exec.
  destruct (decide (trim text = [])) as [Ht|Ht].
  { rewrite !sendMessage_dropped by (by left). unfold pipeline_view; cbn.
    congruence. }
  destruct (loadingRef (page w)) eqn:Hl.
  { rewrite !sendMessage_dropped by (right; congruence).
    unfold pipeline_view; cbn. congruence. }
  rewrite !sendMessage_admitted by congruence.
  unfold pipeline_view; cbn. congruence.
Qed.

(** What a signal can do to the pipeline: nothing, or one [sendMessage]. *)
Lemma signal_pipeline_view h sig w :
  pipeline_view (exec (platform_signal h sig) w) = pipeline_view w \/
  exists text,
    pipeline_view (exec (platform_signal h sig) w) =
    pipeline_view (exec (sendMessage text) w).
Proof.
  unfold exec, platform_signal, dispatch, bind, read, ret.
  destruct (objects (env w) !! h) as [o|]; [|by left].
  destruct sig as [|reason|thrown|event].
  - destruct (onstart o) as [[r]|]; [|by left].
    rewrite onstart_spec. by left.
  - destruct (onerror o) as [[r]|]; [|by left].
    rewrite onerror_spec. by left.
  - destruct (onend o) as [[r]|]; [|by left].
    destruct (isRecordingRef (voice w)) eqn:Hi.
    + destruct thrown;
        [rewrite onend_restart_fails by done | rewrite onend_restart by done];
        by left.
    + rewrite onend_idle by done. by left.
  - destruct (onresult o) as [[r]|]; [|by left].
    rewrite onresult_spec. cbn zeta.
    destruct (truthy (trim (finalized_text event))) eqn:Ht; [|by left].
    right. exists (trim (finalized_text event)).
    by apply sendMessage_pipeline_ext.
Qed.

(** ** The invariants hold in every reachable world *)

Lemma pipeline_exchange_view w w' :
  pipeline_view w = pipeline_view w' -> exchange_view w = exchange_view w'.
Proof.
  unfold pipeline_view, exchange_view. intros [= Hp Hi Hb Hc].
  by rewrite Hp, Hi, Hb, Hc.
Qed.

Lemma VoiceInv_weaken w w' :
  VoiceInv w ->
  objects (env w') = objects (env w) ->
  host (env w') = host (env w) ->
  isRecording (voice w') = isRecordingRef (voice w') ->
  (isRecordingRef (voice w') = true -> isRecordingRef (voice w) = true) ->
  recognitionRef (voice w') = recognitionRef (voice w) ->
  VoiceInv w'.
Proof.
  intros (H1 & H2 & H3 & H4) Ho Hh Hm Hi Hr. unfold VoiceInv.
  rewrite Ho, Hr, Hh. auto.
Qed.

Lemma VoiceInv_view w w' :
  controller_view w = controller_view w' -> VoiceInv w -> VoiceInv w'.
Proof.
  unfold controller_view. intros [= Hv Ho _ Hh] Hinv.
  apply (VoiceInv_weaken w); rewrite <- ?Hv; try done. apply Hinv.
Qed.

Lemma closures_ok_detached h o : closures_ok h (detached o).
Proof. unfold closures_ok, own_closure; cbn. auto. Qed.

Lemma lookup_alter_detached (objs : list SpeechRecognition) h' h o :
  alter detached h' objs !! h = Some o ->
  exists o0, objs !! h = Some o0 /\ (o = o0 \/ (h = h' /\ o = detached o0)).
Proof.
  rewrite list_lookup_alter. destruct (decide (h' = h)) as [->|Hne].
  - destruct (objs !! h) as [o0|]; [|done]. intros [= <-]. eauto.
  - intros H. eauto.
Qed.

Lemma VoiceInv_stop thrown w : VoiceInv w -> VoiceInv (exec (stop thrown) w).
Proof.
  intros (H1 & H2 & H3 & H4). unfold exec.
  destruct (recognitionRef (voice w)) as [h|] eqn:Hr.
  - rewrite (stop_handle _ _ h) by done. unfold VoiceInv; cbn.
    split; [done|]. split; [done|]. split; [done|].
    intros h0 o Hl.
    apply lookup_alter_detached in Hl as (o0 & Hl & [-> | [-> ->]]);
      destruct (H4 _ _ Hl) as [Hc Hs]; split; try done.
    apply closures_ok_detached.
  - rewrite stop_no_handle by done. unfold VoiceInv; cbn.
    split; [done|]. split; [done|]. split; [done|]. exact H4.
Qed.

Lemma VoiceInv_start thrown w :
  VoiceInv w -> VoiceInv (exec (startVoice thrown) w).
Proof.
  intros Hinv. unfold exec.
  destruct (recognitionRef (voice w)) as [h|] eqn:Hr.
  { unfold startVoice. by rewrite start_busy by (left; by eexists). }
  destruct (isRecordingRef (voice w)) eqn:Hi.
  { unfold startVoice. by rewrite start_busy by (by right). }
  destruct (window_SpeechRecognition (host (env w))
            || window_webkitSpeechRecognition (host (env w))) eqn:Hc.
  - rewrite start_created by done. cbn zeta.
    destruct Hinv as (H1 & H2 & H3 & H4).
    assert (Hobj : forall h o,
      (objects (env w) ++
         [configured (length (objects (env w)))
            (navigator_language (host (env w)))]) !! h = Some o ->
      closures_ok h o /\ supported (host (env w)) = true).
    { intros h o Hl. apply lookup_app_Some in Hl as [Hl | [Hge Hl]].
      - by apply H4.
      - apply list_lookup_singleton_Some in Hl as [Hz <-].
        assert (h = length (objects (env w))) as -> by lia.
        split; [|exact Hc].
        unfold closures_ok, own_closure; cbn. auto. }
    destruct thrown; unfold VoiceInv; cbn.
    + split; [done|]. split; [done|]. split; [done|]. exact Hobj.
    + split; [done|]. split; [by eexists|]. split; [|exact Hobj].
      intros h [= <-]. eexists. split; [by apply list_lookup_middle|].
      by unfold is_attached.
  - rewrite start_unsupported by done.
    apply (VoiceInv_weaken w); try done; cbn. apply Hinv.
Qed.

Lemma VoiceInv_signal h sig w :
  VoiceInv w -> VoiceInv (exec (platform_signal h sig) w).
Proof.
  intros Hinv. unfold exec, platform_signal, dispatch, bind, read, ret.
  destruct (objects (env w) !! h) as [o|]; [|done].
  destruct sig as [|reason|thrown|event].
  - destruct (onstart o) as [[r]|]; [|done].
    rewrite onstart_spec. apply (VoiceInv_weaken w); try done. apply Hinv.
  - destruct (onerror o) as [[r]|]; [|done].
    rewrite onerror_spec. by apply (VoiceInv_weaken w).
  - destruct (onend o) as [[r]|]; [|done].
    destruct (isRecordingRef (voice w)) eqn:Hi.
    + destruct thrown;
        [rewrite onend_restart_fails by done | rewrite onend_restart by done];
        apply (VoiceInv_weaken w); try done; cbn; try congruence.
      apply Hinv.
    + rewrite onend_idle by done. apply (VoiceInv_weaken w); try done.
      apply Hinv.
  - destruct (onresult o) as [[r]|]; [|done].
    rewrite onresult_spec. cbn zeta.
    destruct (truthy (trim (finalized_text event))); [|done].
    eapply VoiceInv_view;
      [symmetry; apply (sendMessage_controller_view (trim (finalized_text event)))|].
    revert Hinv. by apply VoiceInv_view.
Qed.

Lemma VoiceInv_step e w : VoiceInv w -> VoiceInv (step e w).
Proof.
  intros Hinv. unfold step. destruct e; cbn [handler].
  - revert Hinv. by apply VoiceInv_view.
  - revert Hinv. apply VoiceInv_view. symmetry.
    unfold handleSend, exec, bind, read. apply sendMessage_controller_view.
  - unfold clickVoice, exec, bind, read.
    destruct (voiceActive _); [by apply VoiceInv_stop | by apply VoiceInv_start].
  - by apply VoiceInv_start.
  - by apply VoiceInv_stop.
  - by apply VoiceInv_signal.
  - revert Hinv. apply VoiceInv_view. symmetry. apply settles_controller_view.
  - revert Hinv. apply VoiceInv_view. symmetry. apply render_controller_view.
  - revert Hinv. apply VoiceInv_view. symmetry. apply flush_controller_view.
Qed.

Lemma run_app evs1 evs2 w : run (evs1 ++ evs2) w = run evs2 (run evs1 w).
Proof. revert w. induction evs1 as [|e evs1 IH]; intros w; cbn; auto. Qed.

Lemma invariant_run (P : World -> Prop) evs w :
  (forall e w, P w -> P (step e w)) -> P w -> P (run evs w).
Proof.
  intros Hstep. revert w. induction evs as [|e evs IH]; intros w Hw; cbn; auto.
Qed.

Lemma reachable_VoiceInv w : reachable w -> VoiceInv w.
Proof.
  intros (h & now & evs & ->). apply invariant_run; [apply VoiceInv_step|].
  unfold VoiceInv; cbn. repeat split; try done.
Qed.

Lemma reachable_step e w : reachable w -> reachable (step e w).
Proof.
  intros (h & now & evs & ->). exists h, now, (evs ++ [e]).
  by rewrite run_app.
Qed.

Lemma reachable_run evs w : reachable w -> reachable (run evs w).
Proof.
  intros (h & now & evs0 & ->). exists h, now, (evs0 ++ evs).
  by rewrite run_app.
Qed.

Lemma reachable_initial h now : reachable (initial h now).
Proof. by exists h, now, []. Qed.

(** ** How single steps move the two components *)

(** Case analysis of a signal: the object is unknown, or the property holds
    [null], or one of the closures of [start] runs. *)
Ltac signal_cases h sig w :=
  unfold exec, platform_signal, dispatch, bind, read, ret;
  destruct (objects (env w) !! h) as [?o|] eqn:?Hobj;
  [ destruct sig as [|?reason|?thrown|?event];
    [ destruct (onstart _) as [[?r]|] eqn:?Hcb; [rewrite onstart_spec|]
    | destruct (onerror _) as [[?r]|] eqn:?Hcb; [rewrite onerror_spec|]
    | destruct (onend _) as [[?r]|] eqn:?Hcb;
      [ destruct (isRecordingRef (voice w)) eqn:?Hintent;
        [ destruct thrown;
          [ rewrite onend_restart_fails by done
          | rewrite onend_restart by done ]
        | rewrite onend_idle by done ]
      | ]
    | destruct (onresult _) as [[?r]|] eqn:?Hcb;
      [ rewrite onresult_spec; cbn zeta;
        destruct (truthy (trim (finalized_text _))) eqn:?Htext
      | ] ]
  | ].

(** A signal never touches the current handle, the objects or the host. *)
Lemma signal_keeps_handle h sig w :
  recognitionRef (voice (exec (platform_signal h sig) w)) =
    recognitionRef (voice w) /\
  objects (env (exec (platform_signal h sig) w)) = objects (env w) /\
  host (env (exec (platform_signal h sig) w)) = host (env w).
Proof.
  signal_cases h sig w; try done.
  match goal with |- context [sendMessage ?t ?w0] =>
    destruct (sendMessage_controller_view t w0) as [Hv _];
    unfold exec, controller_view in Hv; injection Hv as Hv Ho _ Hh;
    rewrite Hv, Ho, Hh end.
  done.
Qed.

(** The objects change in two ways only: [stop] detaches the callbacks of
    one, [start] adds one. *)
Lemma step_objects e w :
  objects (env (step e w)) = objects (env w) \/
  (exists h, objects (env (step e w)) = alter detached h (objects (env w))) \/
  (exists o, objects (env (step e w)) = objects (env w) ++ [o]).
Proof.
  assert (Hstop : forall thrown,
    objects (env (exec (stop thrown) w)) = objects (env w) \/
    exists h, objects (env (exec (stop thrown) w)) =
              alter detached h (objects (env w))).
  { intros thrown. unfold exec.
    destruct (recognitionRef (voice w)) as [h|] eqn:Hr.
    - rewrite (stop_handle _ _ h) by done. right. by exists h.
    - rewrite stop_no_handle by done. by left. }
  assert (Hstart : forall thrown,
    objects (env (exec (startVoice thrown) w)) = objects (env w) \/
    exists o, objects (env (exec (startVoice thrown) w)) =
              objects (env w) ++ [o]).
  { intros thrown. unfold exec.
    destruct (recognitionRef (voice w)) as [h|] eqn:Hr.
    { unfold startVoice. rewrite start_busy by (left; by eexists). by left. }
    destruct (isRecordingRef (voice w)) eqn:Hi.
    { unfold startVoice. rewrite start_busy by (by right). by left. }
    destruct (window_SpeechRecognition (host (env w))
              || window_webkitSpeechRecognition (host (env w))) eqn:Hc.
    - rewrite start_created by done. right. by eexists.
    - rewrite start_unsupported by done. by left. }
  unfold step. destruct e; cbn [handler].
  - by left.
  - left. unfold handleSend, exec, bind, read.
    destruct (sendMessage_controller_view (input (page w)) w) as [Hv _].
    unfold exec, controller_view in Hv. by injection Hv.
  - unfold clickVoice, exec, bind, read. destruct (voiceActive _).
    + destruct (Hstop thrown) as [H|H]; auto.
    + destruct (Hstart thrown) as [H|H]; auto.
  - destruct (Hstart thrown) as [H|H]; auto.
  - destruct (Hstop thrown) as [H|H]; auto.
  - left. apply signal_keeps_handle.
  - left. pose proof (settles_controller_view i settled w) as Hv.
    unfold controller_view in Hv. by injection Hv.
  - left. pose proof (render_controller_view w) as Hv.
    unfold controller_view in Hv. by injection Hv.
  - left. pose proof (flush_controller_view w) as Hv.
    unfold controller_view in Hv. by injection Hv.
Qed.

(** Once detached, always detached. *)
Lemma detached_step e w h o :
  objects (env w) !! h = Some o -> is_detached o ->
  exists o', objects (env (step e w)) !! h = Some o' /\ is_detached o'.
Proof.
  intros Ho Hd.
  destruct (step_objects e w) as [-> | [[h' ->] | [o' ->]]].
  - eauto.
  - rewrite list_lookup_alter. destruct (decide (h' = h)) as [->|Hne].
    + rewrite Ho. cbn. eexists. split; [done|]. by unfold is_detached.
    + eauto.
  - exists o. split; [|done]. by apply lookup_app_l_Some.
Qed.

Lemma detached_run evs w h o :
  objects (env w) !! h = Some o -> is_detached o ->
  exists o', objects (env (run evs w)) !! h = Some o' /\ is_detached o'.
Proof.
  revert w o. induction evs as [|e evs IH]; intros w o Ho Hd; cbn; [eauto|].
  destruct (detached_step e w h o Ho Hd) as (o' & Ho' & Hd'). eauto.
Qed.

(** The host is what it is. *)
Lemma host_step e w : host (env (step e w)) = host (env w).
Proof.
  assert (Hv : forall m : M unit,
    controller_view (exec m w) = controller_view w ->
    host (env (exec m w)) = host (env w)).
  { intros m Hm. unfold controller_view in Hm. by injection Hm. }
  assert (Hstop : forall th, host (env (exec (stop th) w)) = host (env w)).
  { intros th. unfold exec.
    destruct (recognitionRef (voice w)) as [h0|] eqn:Hr0;
      [by rewrite (stop_handle _ _ h0) | by rewrite stop_no_handle]. }
  assert (Hstart : forall th,
    host (env (exec (startVoice th) w)) = host (env w)).
  { intros th. unfold exec.
    destruct (recognitionRef (voice w)) as [h0|] eqn:Hr0.
    { unfold startVoice. by rewrite start_busy by (left; by eexists). }
    destruct (isRecordingRef (voice w)) eqn:Hi0.
    { unfold startVoice. by rewrite start_busy by (by right). }
    destruct (window_SpeechRecognition (host (env w))
              || window_webkitSpeechRecognition (host (env w))) eqn:Hc;
      [by rewrite start_created | by rewrite start_unsupported]. }
  unfold step. destruct e; cbn [handler]; try done.
  - apply Hv. unfold handleSend, exec, bind, read.
    apply sendMessage_controller_view.
  - unfold clickVoice, exec, bind, read.
    destruct (voiceActive _); [apply Hstop | apply Hstart].
  - apply signal_keeps_handle.
  - apply Hv. apply settles_controller_view.
  - apply Hv. apply render_controller_view.
  - apply Hv. apply flush_controller_view.
Qed.

Lemma host_run evs w : host (env (run evs w)) = host (env w).
Proof.
  revert w. induction evs as [|e evs IH]; intros w; cbn; [done|].
  by rewrite IH, host_step.
Qed.

(** Without [stop], the current handle stays, and with it no object is ever
    created. *)
Lemma keeps_handle_step e w h :
  recognitionRef (voice w) = Some h -> is_stop e = false ->
  recognitionRef (voice (step e w)) = Some h /\
  objects (env (step e w)) = objects (env w).
Proof.
  intros Hr He. unfold step. destruct e; cbn [handler]; try done.
  - unfold handleSend, exec, bind, read.
    destruct (sendMessage_controller_view (input (page w)) w) as [Hv _].
    unfold exec, controller_view in Hv. injection Hv as Hv Ho _ _.
    by rewrite Hv, Ho.
  - unfold exec, startVoice. by rewrite start_busy by (left; by eexists).
  - destruct (signal_keeps_handle h0 sig w) as (-> & -> & _). done.
  - pose proof (settles_controller_view i settled w) as Hv.
    unfold controller_view in Hv. injection Hv as Hv Ho _ _.
    by rewrite Hv, Ho.
  - pose proof (render_controller_view w) as Hv.
    unfold controller_view in Hv. injection Hv as Hv Ho _ _.
    by rewrite Hv, Ho.
  - pose proof (flush_controller_view w) as Hv.
    unfold controller_view in Hv. injection Hv as Hv Ho _ _.
    by rewrite Hv, Ho.
Qed.

Lemma keeps_handle_run evs w h :
  recognitionRef (voice w) = Some h ->
  Forall (fun e => is_stop e = false) evs ->
  recognitionRef (voice (run evs w)) = Some h /\
  objects (env (run evs w)) = objects (env w).
Proof.
  intros Hr Hevs. revert w Hr.
  induction Hevs as [|e evs He Hevs IH]; intros w Hr; cbn; [done|].
  destruct (keeps_handle_step e w h Hr He) as [Hr' Ho'].
  destruct (IH _ Hr') as [-> ->]. done.
Qed.

(** ** The conversation pipeline *)

(** C8. Submitting a string that is empty or consists of whitespace only
    changes nothing: no transcript entry, no backend call, no error, and
    the call completes normally. *)
Theorem C8_blank_dropped (w : World) (text : jsstring) :
  Forall (fun c => isWhiteSpace c = true) text ->
  sendMessage text w = (Normal tt, w).
Proof.
  intros H. apply sendMessage_dropped. left. by apply trim_nil_iff.
Qed.

(** The guard of [appendMessage]: the same role and content as the last
    entry, and nothing happens. *)
Lemma appendMessage_dup r c w :
  ends_with r c (messages (page w)) -> appendMessage r c w = (Normal tt, w).
Proof.
  intros (l & Hl & Hr & Hc). unfold appendMessage, setMessages, modify.
  destruct w as [[ms inp ld sid lr] v e]. unfold with_page, put_messages.
  cbn in *. by rewrite (appendMessage_updater_dup r c ms l).
Qed.

Lemma updater_cases r c prev :
  ends_with r c prev /\ appendMessage_updater r c prev = prev \/
  ~ ends_with r c prev /\
  appendMessage_updater r c prev =
    prev ++ [{| role := r; content := c; sources := None |}].
Proof.
  destruct (last prev) as [l|] eqn:Hl.
  - destruct (decide (role l = r /\ content l = c)) as [[Hr Hc]|Hne].
    + left. split; [by exists l|]. by apply (appendMessage_updater_dup _ _ _ l).
    + right. split.
      * intros (l' & Hl' & Hr & Hc). apply Hne. split; congruence.
      * apply appendMessage_updater_new. intros l' Hl' Hr Hc.
        apply Hne. split; congruence.
  - right. split.
    + intros (l' & Hl' & _). congruence.
    + apply appendMessage_updater_new. intros l' Hl'. congruence.
Qed.

Lemma updater_ends_with r c prev : ends_with r c (appendMessage_updater r c prev).
Proof.
  destruct (updater_cases r c prev) as [[He ->] | [_ ->]]; [done|].
  eexists. rewrite last_snoc. done.
Qed.

(** Under a transcript that ends with its user entry a submission adds no
    entry, admitted or not. *)
Lemma sendMessage_repeat text w :
  ends_with User (trim text) (messages (page w)) ->
  messages (page (exec (sendMessage text) w)) = messages (page w).
Proof.
  intros (l & Hl & Hr & Hc). unfold exec.
  destruct (decide (trim text = [])) as [Ht|Ht];
    [by rewrite sendMessage_dropped by (by left)|].
  destruct (loadingRef (page w)) eqn:Hlr;
    [by rewrite sendMessage_dropped by (by right)|].
  rewrite sendMessage_admitted by done. cbn.
  by apply (appendMessage_updater_dup _ _ _ l).
Qed.

(** The scheduler leaves transcript, requests and calls alone. *)
Lemma scheduler_run evs w :
  Forall is_scheduler evs ->
  messages (page (run evs w)) = messages (page w) /\
  inflight (env (run evs w)) = inflight (env w) /\
  backendCalls (env (run evs w)) = backendCalls (env w).
Proof.
  intros Hevs. revert w.
  induction Hevs as [|e evs He Hevs IH]; intros w; cbn [run]; [done|].
  destruct (IH (step e w)) as (-> & -> & ->).
  destruct He as [-> | ->]; unfold step; cbn [handler].
  - destruct (scheduler_frame render w) as (_ & _ & -> & _ & _ & _ & -> & -> & _);
      [by left|done].
  - destruct (scheduler_frame flush_effect w)
      as (_ & _ & -> & _ & _ & _ & -> & -> & _); [by right|done].
Qed.




(** A submission adds its user entry to the transcript or adds nothing. *)
Lemma sendMessage_adds text w :
  messages (page (exec (sendMessage text) w)) = messages (page w) \/
  messages (page (exec (sendMessage text) w)) =
    messages (page w) ++ [user_entry (trim text)].
Proof.
  unfold exec.
  destruct (decide (trim text = [])) as [Ht|Ht];
    [left; by rewrite sendMessage_dropped by (by left)|].
  destruct (loadingRef (page w)) eqn:Hl;
    [left; by rewrite sendMessage_dropped by (by right)|].
  rewrite sendMessage_admitted by done. cbn -[appendMessage_updater].
  destruct (updater_cases User (trim text) (messages (page w)))
    as [[_ ->] | [_ ->]]; [by left | by right].
Qed.

(** C3. [appendMessage] with the role and content of the last transcript
    entry leaves the world as it is, whatever the world.  An utterance that
    is non-empty after trimming and is submitted twice in a row, with
    nothing but React's scheduler running in between, adds its user entry
    once at most.  When the first submission finds [loadingRef] lowered, its
    user entry is at the end of the transcript afterwards: appended when the
    transcript did not end with it, not appended again when it did; the
    second submission then adds no entry, and made at once it leaves the
    whole world as it is. *)
Theorem C3_adjacent_duplicate (w : World) (text : jsstring) (evs : list Event) :
  trim text <> [] ->
  Forall is_scheduler evs ->
  (forall w' r c, ends_with r c (messages (page w')) ->
     appendMessage r c w' = (Normal tt, w')) /\
  let w1 := exec (sendMessage text) w in
  let w2 := exec (sendMessage text) (run evs w1) in
  (messages (page w2) = messages (page w) \/
   messages (page w2) = messages (page w) ++ [user_entry (trim text)]) /\
  (loadingRef (page w) = false ->
     (~ ends_with User (trim text) (messages (page w)) ->
        messages (page w1) = messages (page w) ++ [user_entry (trim text)]) /\
     (ends_with User (trim text) (messages (page w)) ->
        messages (page w1) = messages (page w)) /\
     ends_with User (trim text) (messages (page w1)) /\
     appendMessage User (trim text) w1 = (Normal tt, w1) /\
     sendMessage text w1 = (Normal tt, w1) /\
     messages (page w2) = messages (page w1)).
Proof.
  intros Ht Hevs. split; [intros w' r c; apply appendMessage_dup|].
  intros w1 w2.
  assert (Hadmitted : loadingRef (page w) = false ->
    messages (page w1) =
      appendMessage_updater User (trim text) (messages (page w)) /\
    loadingRef (page w1) = true /\
    ends_with User (trim text) (messages (page w1)) /\
    messages (page w2) = messages (page w1)).
  { intros Hl.
    assert (Hm : messages (page w1) =
                 appendMessage_updater User (trim text) (messages (page w)))
      by (unfold w1, exec; by rewrite sendMessage_admitted).
    assert (Hend : ends_with User (trim text) (messages (page w1)))
      by (rewrite Hm; apply updater_ends_with).
    split; [done|]. split; [unfold w1, exec; by rewrite sendMessage_admitted|].
    split; [done|].
    destruct (scheduler_run evs w1 Hevs) as (Hms & _).
    unfold w2. rewrite sendMessage_repeat; [done|]. by rewrite Hms. }
  split.
  - destruct (loadingRef (page w)) eqn:Hl.
    + assert (Hw1 : w1 = w)
        by (unfold w1, exec; by rewrite sendMessage_dropped by (by right)).
      destruct (scheduler_run evs w Hevs) as (Hms & _).
      unfold w2. rewrite Hw1.
      destruct (sendMessage_adds text (run evs w)) as [-> | ->];
        rewrite Hms; [by left | by right].
    + destruct (Hadmitted eq_refl) as (Hm & _ & _ & ->). rewrite Hm.
      destruct (updater_cases User (trim text) (messages (page w)))
        as [[_ ->] | [_ ->]]; [by left | by right].
  - intros Hl. destruct (Hadmitted Hl) as (Hm & Hl1 & Hend & Hm2).
    split; [|split; [|split; [done|split; [|split; [|done]]]]].
    + intros Hne. rewrite Hm.
      by destruct (updater_cases User (trim text) (messages (page w)))
        as [[He _] | [_ ->]].
    + intros He. rewrite Hm.
      by destruct (updater_cases User (trim text) (messages (page w)))
        as [[_ ->] | [Hne _]].
    + by apply appendMessage_dup.
    + apply sendMessage_dropped. by right.
Qed.


(** C1. In the run [late_effect_run] the utterance "second" is submitted
    while no request is pending, and one call with it is issued.  The effect
    of the render before then lowers [loadingRef] under that request; the
    next utterance is admitted, and its user entry stands between the user
    entry of "second" and the reply to it. *)
Theorem C1_reply_not_contiguous :
  inflight (env (run [ PlatformSignal 0 (SigResult (heard "first")); Render;
                       RunEffect; BackendSettles 0 (Normal (reply_to "one"));
                       Render ] listening)) = [] /\
  let w := run (late_effect_run ++
                [ PlatformSignal 0 (SigResult (heard "third"));
                  BackendSettles 0 (Normal (reply_to "two")) ]) listening in
  messages (page w) =
    [ {| role := Assistant; content := greeting; sources := None |};
      user_entry (lit "first"); assistant_reply (reply_to "one");
      user_entry (lit "second"); user_entry (lit "third");
      assistant_reply (reply_to "two") ] /\
  backendCalls (env w) =
    [ (lit "first", lit "session-0"); (lit "second", lit "session-0");
      (lit "third", lit "session-0") ].
Proof. vm_compute. repeat split; reflexivity. Qed.

(** C2. After the run [late_effect_run] the request for "second" is pending
    and [loadingRef] is lowered: the effect wrote the [loading] that its
    render had captured.  A submission in that world is not dropped: its user
    entry is appended, a second call is issued, and two requests are
    pending. *)
Theorem C2_two_requests_pending :
  let w := run late_effect_run listening in
  inflight (env w) = [(lit "second", lit "session-0")] /\
  loadingRef (page w) = false /\
  loading (page w) = true /\
  let w' := exec (sendMessage (lit "third")) w in
  messages (page w') = messages (page w) ++ [user_entry (lit "third")] /\
  backendCalls (env w') = backendCalls (env w) ++ [(lit "third", lit "session-0")] /\
  inflight (env w') =
    [(lit "second", lit "session-0"); (lit "third", lit "session-0")].
Proof. vm_compute. repeat split; reflexivity. Qed.

(** ** The voice session controller *)

(** What a result signal does on an object whose [onresult] is attached. *)
Lemma result_effect w h o event :
  objects (env w) !! h = Some o -> onresult o <> None ->
  let w' := exec (platform_signal h (SigResult event)) w in
  let t := trim (finalized_text event) in
  transcriptions (env w') =
    transcriptions (env w) ++ (if truthy t then [(User, t)] else []) /\
  controller_view w' = controller_view w.
Proof.
  intros Ho Hcb. cbn zeta.
  unfold exec, platform_signal, dispatch, bind, read, ret. rewrite Ho.
  destruct (onresult o) as [[r]|]; [|done].
  rewrite onresult_spec. cbn zeta.
  destruct (truthy (trim (finalized_text event))) eqn:Ht.
  - match goal with |- context [sendMessage ?t ?w0] =>
      destruct (sendMessage_controller_view t w0) as [Hv Htr];
      unfold exec in Hv, Htr; rewrite Hv, Htr end.
    done.
  - by rewrite app_nil_r.
Qed.

(** What an ended signal does on an object whose [onend] is attached. *)
Lemma ended_effect w h o r thrown :
  objects (env w) !! h = Some o -> onend o = Some (InStart r) ->
  let w' := exec (platform_signal h (SigEnd thrown)) w in
  status (voice w') =
    (if isRecordingRef (voice w)
     then match thrown with None => Connecting | Some _ => Error end
     else Idle) /\
  platformCalls (env w') =
    platformCalls (env w) ++
      (if isRecordingRef (voice w) then [CallStart r] else []) /\
  isRecordingRef (voice w') =
    match thrown with None => isRecordingRef (voice w) | Some _ => false end /\
  error (voice w') =
    (if isRecordingRef (voice w)
     then match thrown with
          | None => error (voice w)
          | Some _ => Some (lit "Speech recognition stopped unexpectedly")
          end
     else error (voice w)) /\
  recognitionRef (voice w') = recognitionRef (voice w) /\
  exchange_view w' = exchange_view w.
Proof.
  intros Ho Hcb. cbn zeta.
  unfold exec, platform_signal, dispatch, bind, read, ret. rewrite Ho, Hcb.
  destruct (isRecordingRef (voice w)) eqn:Hi.
  - destruct thrown;
      [rewrite onend_restart_fails by done | rewrite onend_restart by done];
      cbn; rewrite ?Hi; done.
  - rewrite onend_idle by done. cbn. rewrite app_nil_r, Hi.
    by destruct thrown.
Qed.

(** [stop] leaves the object it held with no callback attached. *)
Lemma stop_detaches w h thrown :
  VoiceInv w -> recognitionRef (voice w) = Some h ->
  exists o, objects (env (exec (stop thrown) w)) !! h = Some o /\ is_detached o.
Proof.
  intros (_ & _ & H3 & _) Hr. destruct (H3 h Hr) as (o & Ho & _).
  unfold exec. rewrite (stop_handle _ _ h) by done.
  cbn. exists (detached o). split; [|by unfold is_detached].
  by rewrite list_lookup_alter_eq, Ho.
Qed.

Lemma stop_idempotent t1 t2 w :
  stop t2 (exec (stop t1) w) = (Normal tt, exec (stop t1) w).
Proof.
  unfold exec. destruct (recognitionRef (voice w)) as [h|] eqn:Hr.
  - rewrite (stop_handle t1 _ h) by done. by rewrite stop_no_handle.
  - rewrite (stop_no_handle t1) by done. by rewrite stop_no_handle.
Qed.

(** C4, as the code has it.  A result signal joins, in order, the best
    transcripts of the finalized results from [resultIndex] on, trims the
    joined text, and calls [onTranscription('user', text)] once if the text
    is non-empty and not at all otherwise.  Interim results contribute
    nothing.  A signal with a single finalized utterance therefore emits
    that utterance, trimmed, once.  No cell of the controller changes. *)
Theorem C4_result_signal (w : World) (h : Handle) (o : SpeechRecognition)
    (event : SpeechRecognitionEvent) :
  objects (env w) !! h = Some o ->
  onresult o <> None ->
  let w' := exec (platform_signal h (SigResult event)) w in
  let finals :=
    filter (fun r => isFinal r = true) (drop (resultIndex event) (results event)) in
  let t := trim (concat (map (fun r => transcript (item0 r)) finals)) in
  transcriptions (env w') =
    transcriptions (env w) ++ (if truthy t then [(User, t)] else []) /\
  (forall r0, finals = [r0] -> t = trim (transcript (item0 r0))) /\
  (finals = [] -> transcriptions (env w') = transcriptions (env w)) /\
  voice w' = voice w.
Proof.
  intros Ho Hcb w' finals t.
  destruct (result_effect w h o event Ho Hcb) as [Htr Hv].
  fold w' in Htr, Hv. split; [exact Htr|]. split; [|split].
  - intros r0 Hf. unfold t. rewrite Hf. cbn. by rewrite app_nil_r.
  - intros Hf. rewrite Htr. unfold finalized_text. fold finals. rewrite Hf.
    cbn. by rewrite app_nil_r.
  - unfold controller_view in Hv. by injection Hv.
Qed.

(** C5, as the code has it.  An ended signal on an object whose [onend] is
    attached: with listening intent set, status becomes connecting and the
    platform is told once to start the same object again; if that call
    throws, status becomes error with the fixed message, intent is cleared
    and a later ended signal starts nothing.  With intent cleared, status
    becomes idle, and that is the only way an ended signal yields idle; a
    call of [stop] need not have come before.  [stop] detaches the callback
    of the object it holds, so an ended signal of that object after [stop]
    runs nothing. *)
Theorem C5_ended_signal (w : World) (h : Handle) (o : SpeechRecognition)
    (thrown : option JsError) :
  reachable w ->
  objects (env w) !! h = Some o ->
  onend o <> None ->
  let w' := exec (platform_signal h (SigEnd thrown)) w in
  status (voice w') =
    (if isRecordingRef (voice w)
     then match thrown with None => Connecting | Some _ => Error end
     else Idle) /\
  platformCalls (env w') =
    platformCalls (env w) ++
      (if isRecordingRef (voice w) then [CallStart h] else []) /\
  isRecordingRef (voice w') =
    match thrown with None => isRecordingRef (voice w) | Some _ => false end /\
  error (voice w') =
    (if isRecordingRef (voice w)
     then match thrown with
          | None => error (voice w)
          | Some _ => Some (lit "Speech recognition stopped unexpectedly")
          end
     else error (voice w)) /\
  (status (voice w') = Idle <-> isRecordingRef (voice w) = false) /\
  (forall again,
     isRecordingRef (voice w') = false ->
     let w'' := exec (platform_signal h (SigEnd again)) w' in
     platformCalls (env w'') = platformCalls (env w') /\
     status (voice w'') = Idle) /\
  (forall t,
     recognitionRef (voice w) = Some h ->
     platform_signal h (SigEnd thrown) (exec (stop t) w) =
     (Normal tt, exec (stop t) w)).
Proof.
  intros Hreach Ho Hcb w'.
  pose proof (reachable_VoiceInv w Hreach) as Hinv.
  destruct Hinv as (_ & _ & _ & H4).
  destruct (H4 h o Ho) as [(_ & Hend & _) _].
  destruct Hend as [Hend | Hend]; [done|].
  destruct (ended_effect w h o h thrown Ho Hend) as (Hs & Hp & Hi & He & Hr & _).
  fold w' in Hs, Hp, Hi, He, Hr.
  repeat split; try done.
  - intros Hidle. rewrite Hs in Hidle.
    destruct (isRecordingRef (voice w)); [by destruct thrown | done].
  - intros Hi0. by rewrite Hs, Hi0.
  - destruct (signal_keeps_handle h (SigEnd thrown) w) as (_ & Hobj & _).
    fold w' in Hobj. rewrite <- Hobj in Ho.
    destruct (ended_effect w' h o h again Ho Hend) as (_ & Hp' & _).
    rewrite Hp', H. by rewrite app_nil_r.
  - destruct (signal_keeps_handle h (SigEnd thrown) w) as (_ & Hobj & _).
    fold w' in Hobj. rewrite <- Hobj in Ho.
    destruct (ended_effect w' h o h again Ho Hend) as (Hs' & _).
    by rewrite Hs', H.
  - intros t Hcur.
    destruct (stop_detaches w h t (reachable_VoiceInv w Hreach) Hcur)
      as (o' & Ho' & Hd').
    by apply (dispatch_detached _ _ _ _ _ o').
Qed.

(** C6. [stop] leaves the object it held with its four callback properties
    set to [null] and gives up the reference to it; from then on, whatever
    else happens, a signal of that object runs no code: no
    [onTranscription] call, no change of status, of the transcript or of
    anything else. *)
Theorem C6_stop_detaches (w : World) (h : Handle) (thrown : option JsError)
    (evs : list Event) (sig : Signal) :
  reachable w ->
  recognitionRef (voice w) = Some h ->
  let w1 := exec (stop thrown) w in
  let w2 := run evs w1 in
  (exists o, objects (env w1) !! h = Some o /\ is_detached o) /\
  recognitionRef (voice w1) = None /\
  status (voice w1) = Idle /\
  isRecordingRef (voice w1) = false /\
  platformCalls (env w1) = platformCalls (env w) ++ [CallStop h] /\
  platform_signal h sig w1 = (Normal tt, w1) /\
  platform_signal h sig w2 = (Normal tt, w2).
Proof.
  intros Hreach Hr w1 w2.
  pose proof (reachable_VoiceInv w Hreach) as Hinv.
  destruct (stop_detaches w h thrown Hinv Hr) as (o & Ho & Hd).
  fold w1 in Ho.
  destruct (detached_run evs w1 h o Ho Hd) as (o2 & Ho2 & Hd2).
  fold w2 in Ho2.
  split; [by exists o|].
  assert (Hw1 : recognitionRef (voice w1) = None /\ status (voice w1) = Idle /\
                isRecordingRef (voice w1) = false /\
                platformCalls (env w1) = platformCalls (env w) ++ [CallStop h]).
  { unfold w1, exec. by rewrite (stop_handle _ _ h). }
  destruct Hw1 as (? & ? & ? & ?). repeat split; try done.
  - by apply (dispatch_detached _ _ _ _ _ o).
  - by apply (dispatch_detached _ _ _ _ _ o2).
Qed.

(** C9, as the code has it.  With no current handle [stop] tells the
    platform nothing and leaves the last error, the listening intent
    (already clear), the objects and the whole pipeline as they were, but it
    sets status to idle whatever it was.  [stop] is idempotent: a second
    [stop] leaves the world identical. *)
Theorem C9_stop_without_handle (w : World) (t1 t2 : option JsError) :
  reachable w ->
  recognitionRef (voice w) = None ->
  let w' := exec (stop t1) w in
  status (voice w') = Idle /\
  error (voice w') = error (voice w) /\
  isRecordingRef (voice w') = isRecordingRef (voice w) /\
  isRecording (voice w') = isRecording (voice w) /\
  recognitionRef (voice w') = recognitionRef (voice w) /\
  page w' = page w /\
  env w' = env w /\
  (status (voice w) = Idle -> w' = w) /\
  stop t2 w' = (Normal tt, w') /\
  (forall w0, stop t2 (exec (stop t1) w0) = (Normal tt, exec (stop t1) w0)).
Proof.
  intros Hreach Hr w'.
  destruct (reachable_VoiceInv w Hreach) as (H1 & H2 & _).
  assert (Hi : isRecordingRef (voice w) = false).
  { destruct (isRecordingRef (voice w)); [|done].
    destruct (H2 eq_refl) as [h Hh]. congruence. }
  assert (Hw' : w' = with_voice (fun c =>
     {| status := Idle; isRecording := false; error := error c;
        recognitionRef := None; isRecordingRef := false |}) w).
  { unfold w', exec. by rewrite stop_no_handle. }
  rewrite Hi in H1.
  split; [by rewrite Hw'|]. split; [by rewrite Hw'|].
  split; [by rewrite Hw', Hi|]. split; [by rewrite Hw', H1|].
  split; [by rewrite Hw', Hr|]. split; [by rewrite Hw'|].
  split; [by rewrite Hw'|]. split; [|split].
  - intros Hs. rewrite Hw'. destruct w as [p [s r e rr ir] en].
    unfold with_voice. cbn in *. by subst.
  - apply stop_idempotent.
  - intros w0. apply stop_idempotent.
Qed.

(** C10. A platform error signal on the current object keeps the object as
    the current handle and clears listening intent only.  Until [stop] is
    called, whatever else happens, [start] returns at once: the world is
    unchanged, so no object is created, the last error stays and status
    stays.  After [stop], [start] creates a fresh object, clears the last
    error and sets status to connecting. *)
Theorem C10_error_keeps_handle (w : World) (h : Handle)
    (reason : option jsstring) (evs : list Event) (thrown t : option JsError) :
  reachable w ->
  recognitionRef (voice w) = Some h ->
  Forall (fun e => is_stop e = false) evs ->
  let w1 := exec (platform_signal h (SigError reason)) w in
  let w2 := run evs w1 in
  let w3 := exec (startVoice None) (exec (stop t) w2) in
  recognitionRef (voice w1) = Some h /\
  isRecordingRef (voice w1) = false /\
  status (voice w1) = Error /\
  error (voice w1) = Some (error_message reason) /\
  objects (env w1) = objects (env w) /\
  startVoice thrown w1 = (Normal tt, w1) /\
  recognitionRef (voice w2) = Some h /\
  objects (env w2) = objects (env w) /\
  startVoice thrown w2 = (Normal tt, w2) /\
  recognitionRef (voice w3) = Some (length (objects (env w))) /\
  length (objects (env w3)) = S (length (objects (env w))) /\
  error (voice w3) = None /\
  status (voice w3) = Connecting /\
  isRecordingRef (voice w3) = true.
Proof.
  intros Hreach Hr Hevs w1 w2 w3.
  destruct (reachable_VoiceInv w Hreach) as (_ & _ & H3 & H4).
  destruct (H3 h Hr) as (o & Ho & (_ & _ & Herr & _)).
  destruct (H4 h o Ho) as [_ Hsup].
  assert (Hw1 : w1 = with_voice (fun c =>
     {| status := Error; isRecording := false;
        error := Some (error_message reason);
        recognitionRef := recognitionRef c; isRecordingRef := false |}) w).
  { unfold w1, exec, platform_signal, dispatch, bind, read, ret.
    rewrite Ho, Herr. by rewrite onerror_spec. }
  assert (Hr1 : recognitionRef (voice w1) = Some h) by (by rewrite Hw1).
  assert (Ho1 : objects (env w1) = objects (env w)) by (by rewrite Hw1).
  destruct (keeps_handle_run evs w1 h Hr1 Hevs) as [Hr2 Ho2]. fold w2 in Hr2, Ho2.
  assert (Hbusy : forall w0, recognitionRef (voice w0) = Some h ->
                  startVoice thrown w0 = (Normal tt, w0)).
  { intros w0 Hw0. unfold startVoice. apply start_busy. left. by eexists. }
  assert (Hhost : host (env w2) = host (env w)).
  { unfold w2. rewrite host_run. by rewrite Hw1. }
  assert (Hw3 : recognitionRef (voice w3) = Some (length (objects (env w))) /\
     length (objects (env w3)) = S (length (objects (env w))) /\
     error (voice w3) = None /\ status (voice w3) = Connecting /\
     isRecordingRef (voice w3) = true).
  { unfold w3, exec. rewrite (stop_handle _ _ h) by done.
    rewrite start_created; cbn; rewrite ?Hhost; try done.
    rewrite length_app, length_alter, Ho2, Ho1. cbn.
    repeat split; try done. lia. }
  destruct Hw3 as (? & ? & ? & ? & ?).
  repeat split; try done; try (by rewrite Hw1).
  - by apply Hbusy.
  - congruence.
  - by apply Hbusy.
Qed.

(** ** The statements at work on sample worlds *)

Lemma C4_witness :
  objects (env listening) !! 0 = Some (configured 0 (lit "en-GB")) /\
  onresult (configured 0 (lit "en-GB")) <> None /\
  transcriptions (env (exec (platform_signal 0 (SigResult one_final)) listening)) =
  [(User, lit "what is a copay")].
Proof.
  assert (Ho : objects (env listening) !! 0 = Some (configured 0 (lit "en-GB")))
    by reflexivity.
  assert (Hcb : onresult (configured 0 (lit "en-GB")) <> None) by discriminate.
  destruct (C4_result_signal listening 0 (configured 0 (lit "en-GB")) one_final
              Ho Hcb) as (Htr & _).
  split; [exact Ho|]. split; [exact Hcb|]. exact Htr.
Defined.

(** C4 as worded fails: a signal with two finalized utterances makes one
    call with the joined text, not one call per utterance. *)
Lemma C4_counterexample :
  let w' := step (PlatformSignal 0 (SigResult two_finals)) listening in
  transcriptions (env listening) = [] /\
  transcriptions (env w') = [(User, lit "hello world")] /\
  per_utterance_emissions two_finals = [(User, lit "hello"); (User, lit "world")] /\
  transcriptions (env w') <>
    transcriptions (env listening) ++ per_utterance_emissions two_finals.
Proof. vm_compute. repeat split; discriminate. Qed.

Lemma C5_witness :
  objects (env listening) !! 0 = Some (configured 0 (lit "en-GB")) /\
  onend (configured 0 (lit "en-GB")) <> None /\
  status (voice (exec (platform_signal 0 (SigEnd None)) listening)) = Connecting /\
  platformCalls (env (exec (platform_signal 0 (SigEnd None)) listening)) =
  [CallStart 0; CallStart 0].
Proof.
  assert (Hreach : reachable listening).
  { exists chrome, 0%N, [ClickVoice None; PlatformSignal 0 SigStart].
    reflexivity. }
  assert (Ho : objects (env listening) !! 0 = Some (configured 0 (lit "en-GB")))
    by reflexivity.
  assert (Hcb : onend (configured 0 (lit "en-GB")) <> None) by discriminate.
  destruct (C5_ended_signal listening 0 (configured 0 (lit "en-GB")) None
              Hreach Ho Hcb) as (Hs & Hp & _).
  split; [exact Ho|]. split; [exact Hcb|]. split; [exact Hs | exact Hp].
Defined.

(** C5 as worded fails: after a platform error the ended signal finds the
    intent cleared and moves status from error to idle, and no [stop] was
    ever called. *)
Lemma C5_counterexample :
  let trace := [CallStartVoice None; PlatformSignal 0 SigStart;
                PlatformSignal 0 (SigError (Some (lit "network")))] in
  let w := run trace fresh in
  let w' := step (PlatformSignal 0 (SigEnd None)) w in
  Forall (fun e => is_stop e = false) trace /\
  platformCalls (env w) = [CallStart 0] /\
  isRecordingRef (voice w) = false /\
  status (voice w) = Error /\
  status (voice w') = Idle.
Proof. split; [repeat constructor | vm_compute; repeat split]. Qed.

Lemma C6_witness :
  recognitionRef (voice listening) = Some 0 /\
  platform_signal 0 (SigResult one_final)
    (run [ClickVoice None; PlatformSignal 1 SigStart]
       (exec (stop None) listening)) =
  (Normal tt,
   run [ClickVoice None; PlatformSignal 1 SigStart] (exec (stop None) listening)).
Proof.
  assert (Hreach : reachable listening).
  { exists chrome, 0%N, [ClickVoice None; PlatformSignal 0 SigStart].
    reflexivity. }
  assert (Hr : recognitionRef (voice listening) = Some 0) by reflexivity.
  destruct (C6_stop_detaches listening 0 None
              [ClickVoice None; PlatformSignal 1 SigStart]
              (SigResult one_final) Hreach Hr) as (_ & _ & _ & _ & _ & _ & H).
  split; [exact Hr | exact H].
Defined.

Lemma C3_witness :
  trim (lit "What does 'copay' mean?") <> [] /\
  Forall is_scheduler [Render; RunEffect] /\
  loadingRef (page fresh) = false /\
  messages (page (exec (sendMessage (lit "What does 'copay' mean?")) fresh)) =
    messages (page fresh) ++ [user_entry (lit "What does 'copay' mean?")] /\
  messages (page (exec (sendMessage (lit "What does 'copay' mean?"))
                    (run [Render; RunEffect]
                       (exec (sendMessage (lit "What does 'copay' mean?")) fresh)))) =
    messages (page (exec (sendMessage (lit "What does 'copay' mean?")) fresh)).
Proof.
  assert (Ht : trim (lit "What does 'copay' mean?") <> [])
    by (vm_compute; discriminate).
  assert (Hevs : Forall is_scheduler [Render; RunEffect]).
  { apply List.Forall_cons; [by left|].
    apply List.Forall_cons; [by right|]. apply List.Forall_nil. }
  assert (Hl : loadingRef (page fresh) = false) by reflexivity.
  assert (Hne : ~ ends_with User (trim (lit "What does 'copay' mean?"))
                  (messages (page fresh))).
  { intros (l & Hlast & Hr & _). vm_compute in Hlast.
    injection Hlast as <-. discriminate Hr. }
  destruct (C3_adjacent_duplicate fresh (lit "What does 'copay' mean?")
              [Render; RunEffect] Ht Hevs) as (_ & _ & Hfirst).
  destruct (Hfirst Hl) as (Hnew & _ & _ & _ & _ & Hm).
  split; [exact Ht|]. split; [exact Hevs|]. split; [exact Hl|].
  split; [exact (Hnew Hne) | exact Hm].
Defined.



Lemma C8_witness :
  Forall (fun c => isWhiteSpace c = true) [32; 9; 10; 160; 12288]%N /\
  sendMessage [32; 9; 10; 160; 12288]%N fresh = (Normal tt, fresh).
Proof.
  assert (H : Forall (fun c => isWhiteSpace c = true) [32; 9; 10; 160; 12288]%N)
    by (repeat constructor).
  split; [exact H|]. exact (C8_blank_dropped fresh _ H).
Defined.

Lemma C9_witness :
  recognitionRef (voice unsupported_world) = None /\
  status (voice (exec (stop None) unsupported_world)) = Idle /\
  error (voice (exec (stop None) unsupported_world)) =
    error (voice unsupported_world).
Proof.
  assert (Hreach : reachable unsupported_world).
  { exists bare_host, 0%N, [ClickVoice None]. reflexivity. }
  assert (Hr : recognitionRef (voice unsupported_world) = None) by reflexivity.
  destruct (C9_stop_without_handle unsupported_world None None Hreach Hr)
    as (Hs & He & _).
  split; [exact Hr|]. split; [exact Hs | exact He].
Defined.

(** C9 as worded fails: on a host without speech recognition [start]
    leaves status error and no handle; [stop] then changes status to
    idle. *)
Lemma C9_counterexample :
  recognitionRef (voice unsupported_world) = None /\
  status (voice unsupported_world) = Error /\
  status (voice (step (CallStopVoice None) unsupported_world)) = Idle /\
  status (voice (step (CallStopVoice None) unsupported_world)) <>
    status (voice unsupported_world).
Proof. vm_compute. repeat split; discriminate. Qed.

Lemma C10_witness :
  recognitionRef (voice listening) = Some 0 /\
  Forall (fun e => is_stop e = false)
    [PlatformSignal 0 (SigEnd None); CallStartVoice None; ClickSend] /\
  startVoice None
    (run [PlatformSignal 0 (SigEnd None); CallStartVoice None; ClickSend]
       (exec (platform_signal 0 (SigError (Some (lit "no-speech")))) listening)) =
  (Normal tt,
   run [PlatformSignal 0 (SigEnd None); CallStartVoice None; ClickSend]
     (exec (platform_signal 0 (SigError (Some (lit "no-speech")))) listening)).
Proof.
  assert (Hreach : reachable listening).
  { exists chrome, 0%N, [ClickVoice None; PlatformSignal 0 SigStart].
    reflexivity. }
  assert (Hr : recognitionRef (voice listening) = Some 0) by reflexivity.
  assert (Hevs : Forall (fun e => is_stop e = false)
            [PlatformSignal 0 (SigEnd None); CallStartVoice None; ClickSend])
    by (repeat constructor).
  destruct (C10_error_keeps_handle listening 0 (Some (lit "no-speech"))
              [PlatformSignal 0 (SigEnd None); CallStartVoice None; ClickSend]
              None None Hreach Hr Hevs)
    as (_ & _ & _ & _ & _ & _ & _ & _ & H & _).
  split; [exact Hr|]. split; [exact Hevs | exact H].
Defined.

(** * Further properties of the code *)

(** ** Trimming twice *)

Lemma trimStart_fixed c s :
  isWhiteSpace c = false -> trimStart (c :: s) = c :: s.
Proof. intros H. cbn. by rewrite H. Qed.

Lemma trimStart_idem s : trimStart (trimStart s) = trimStart s.
Proof.
  destruct (trimStart s) as [|c s'] eqn:Hs; [done|].
  apply trimStart_fixed. by apply (trimStart_head s c s').
Qed.

Lemma trim_idem s : trim (trim s) = trim s.
Proof.
  unfold trim, trimEnd.
  destruct (trimStart s) as [|c a] eqn:Ha; [done|].
  pose proof (trimStart_head _ _ _ Ha) as Hc.
  destruct (trimStart (rev (c :: a))) as [|d b] eqn:Hb.
  { apply trimStart_nil_iff in Hb.
    apply Forall_forall with (x := c) in Hb; [congruence|].
    apply list_elem_of_In, in_rev. rewrite rev_involutive. by left. }
  pose proof (trimStart_head _ _ _ Hb) as Hd.
  assert (Hfirst : exists b', rev (d :: b) = c :: b').
  { assert (Hsuf : forall l, exists p, l = p ++ trimStart l).
    { induction l as [|x l [p IH]]; [by exists []|]. cbn.
      destruct (isWhiteSpace x); [|by exists []].
      exists (x :: p). cbn. by rewrite <- IH. }
    destruct (Hsuf (rev (c :: a))) as [p Hp]. rewrite Hb in Hp.
    apply (f_equal (@rev N)) in Hp. rewrite rev_involutive, rev_app_distr in Hp.
    destruct (rev (d :: b)) as [|x b'] eqn:Hr.
    - apply (f_equal (@length N)) in Hr. rewrite length_rev in Hr. done.
    - cbn in Hp. injection Hp as -> _. by exists b'. }
  destruct Hfirst as [b' Hb']. rewrite Hb'.
  rewrite (trimStart_fixed c b' Hc). rewrite <- Hb', rev_involutive.
  by rewrite (trimStart_fixed d b Hd).
Qed.

(** ** What one event can do *)

Ltac no_growth :=
  exists []; split; [by rewrite ?app_nil_r | cbn; lia].

(** The transcript only grows, by at most one entry per event. *)
Lemma updater_appends r c prev :
  exists l, appendMessage_updater r c prev = prev ++ l /\ length l <= 1.
Proof.
  unfold appendMessage_updater.
  destruct (last prev) as [m|];
    [destruct (bool_decide (role m = r) && bool_decide (content m = c))|].
  - no_growth.
  - eexists. split; [done|]. cbn. lia.
  - eexists. split; [done|]. cbn. lia.
Qed.

Lemma sendMessage_messages text w :
  exists l, messages (page (exec (sendMessage text) w)) = messages (page w) ++ l
            /\ length l <= 1.
Proof.
  unfold exec.
  destruct (decide (trim text = [])) as [Ht|Ht].
  { rewrite sendMessage_dropped by (by left). no_growth. }
  destruct (loadingRef (page w)) eqn:Hl.
  { rewrite sendMessage_dropped by (by right). no_growth. }
  rewrite sendMessage_admitted by done. cbn. apply updater_appends.
Qed.

Lemma step_messages e w :
  exists l, messages (page (step e w)) = messages (page w) ++ l /\ length l <= 1.
Proof.
  assert (Hsame : forall w', pipeline_view w' = pipeline_view w ->
    exists l, messages (page w') = messages (page w) ++ l /\ length l <= 1).
  { intros w' Hv. unfold pipeline_view in Hv. injection Hv as Hp _ _ _.
    rewrite Hp. no_growth. }
  unfold step. destruct e; cbn [handler].
  - no_growth.
  - unfold handleSend, exec, bind, read. apply sendMessage_messages.
  - apply Hsame. unfold clickVoice, exec, bind, read.
    destruct (voiceActive _);
      [apply stop_pipeline_view | apply start_pipeline_view].
  - apply Hsame, start_pipeline_view.
  - apply Hsame, stop_pipeline_view.
  - destruct (signal_pipeline_view h sig w) as [Hv | [text Hv]].
    + by apply Hsame.
    + destruct (sendMessage_messages text w) as (l & Hl & Hlen).
      exists l. split; [|done]. rewrite <- Hl.
      unfold pipeline_view in Hv. injection Hv as Hp _ _ _. by rewrite Hp.
  - unfold exec, backend_settles, bind, read, modify, ret.
    destruct (inflight (env w) !! i); [|no_growth].
    destruct settled as [resp|err].
    + rewrite sendMessage_resume_fulfilled. cbn. eexists. split; [done|].
      cbn. lia.
    + rewrite sendMessage_resume_rejected. cbn. apply updater_appends.
  - destruct (scheduler_frame render w) as (_ & _ & -> & _); [by left|].
    no_growth.
  - destruct (scheduler_frame flush_effect w) as (_ & _ & -> & _); [by right|].
    no_growth.
Qed.

(** The platform is called from [start], [stop] and the ended signal only,
    once at most. *)
Lemma step_platformCalls e w :
  exists l, platformCalls (env (step e w)) = platformCalls (env w) ++ l /\
            length l <= 1 /\ (may_call_platform e = false -> l = []).
Proof.
  assert (Hsame : forall w', controller_view w' = controller_view w ->
    platformCalls (env w') = platformCalls (env w) ++ []).
  { intros w' Hv. unfold controller_view in Hv. injection Hv as _ _ Hp _.
    by rewrite Hp, app_nil_r. }
  assert (Hstop : forall thrown, exists l,
    platformCalls (env (exec (stop thrown) w)) = platformCalls (env w) ++ l /\
    length l <= 1).
  { intros thrown. unfold exec.
    destruct (recognitionRef (voice w)) as [h|] eqn:Hr.
    - rewrite (stop_handle _ _ h) by done. eexists. split; [done|]. cbn. lia.
    - rewrite stop_no_handle by done. no_growth. }
  assert (Hstart : forall thrown, exists l,
    platformCalls (env (exec (startVoice thrown) w)) = platformCalls (env w) ++ l /\
    length l <= 1).
  { intros thrown. unfold exec.
    destruct (recognitionRef (voice w)) as [h|] eqn:Hr.
    { unfold startVoice. rewrite start_busy by (left; by eexists).
      no_growth. }
    destruct (isRecordingRef (voice w)) eqn:Hi.
    { unfold startVoice. rewrite start_busy by (by right). no_growth. }
    destruct (window_SpeechRecognition (host (env w))
              || window_webkitSpeechRecognition (host (env w))) eqn:Hc.
    - rewrite start_created by done. eexists. split; [done|]. cbn. lia.
    - rewrite start_unsupported by done. no_growth. }
  unfold step. destruct e; cbn [handler may_call_platform].
  - exists []. split; [by apply Hsame|]. cbn. split; [lia|done].
  - exists []. split; [|cbn; split; [lia|done]]. apply Hsame.
    unfold handleSend, exec, bind, read. apply sendMessage_controller_view.
  - unfold clickVoice, exec, bind, read. destruct (voiceActive _).
    + destruct (Hstop thrown) as (l & ? & ?). exists l. by repeat split.
    + destruct (Hstart thrown) as (l & ? & ?). exists l. by repeat split.
  - destruct (Hstart thrown) as (l & ? & ?). exists l. by repeat split.
  - destruct (Hstop thrown) as (l & ? & ?). exists l. by repeat split.
  - signal_cases h sig w;
      try (exists []; cbn; rewrite app_nil_r; repeat split; (done || lia)).
    + eexists. cbn. split; [done|]. cbn. split; [lia|done].
    + eexists. cbn. split; [done|]. cbn. split; [lia|done].
    + exists []. split; [|cbn; split; [lia|done]].
      match goal with |- context [sendMessage ?t ?w0] =>
        destruct (sendMessage_controller_view t w0) as [Hv _];
        unfold exec, controller_view in Hv; injection Hv as _ _ Hp _;
        rewrite Hp end.
      cbn. by rewrite app_nil_r.
  - exists []. split; [|cbn; split; [lia|done]].
    apply Hsame, settles_controller_view.
  - exists []. split; [|cbn; split; [lia|done]].
    apply Hsame, render_controller_view.
  - exists []. split; [|cbn; split; [lia|done]].
    apply Hsame, flush_controller_view.
Qed.

(** ** The shape of the transcript *)

Lemma sessionId_step e w : sessionId (page (step e w)) = sessionId (page w).
Proof.
  assert (Hsm : forall text,
    sessionId (page (exec (sendMessage text) w)) = sessionId (page w)).
  { intros text. unfold exec.
    destruct (decide (trim text = [])) as [Ht|Ht];
      [by rewrite sendMessage_dropped by (by left)|].
    destruct (loadingRef (page w)) eqn:Hl;
      [by rewrite sendMessage_dropped by (by right)|].
    by rewrite sendMessage_admitted. }
  assert (Hsame : forall w', pipeline_view w' = pipeline_view w ->
    sessionId (page w') = sessionId (page w)).
  { intros w' Hv. unfold pipeline_view in Hv. injection Hv as Hp _ _ _.
    by rewrite Hp. }
  unfold step. destruct e; cbn [handler]; try done.
  - apply Hsm.
  - apply Hsame. unfold clickVoice, exec, bind, read.
    destruct (voiceActive _);
      [apply stop_pipeline_view | apply start_pipeline_view].
  - apply Hsame, start_pipeline_view.
  - apply Hsame, stop_pipeline_view.
  - destruct (signal_pipeline_view h sig w) as [Hv | [text Hv]].
    + by apply Hsame.
    + rewrite <- (Hsm text). unfold pipeline_view in Hv.
      injection Hv as Hp _ _ _. by rewrite Hp.
  - unfold exec, backend_settles, bind, read, modify, ret.
    destruct (inflight (env w) !! i); [|done].
    destruct settled;
      [by rewrite sendMessage_resume_fulfilled
      | by rewrite sendMessage_resume_rejected].
  - apply scheduler_frame. by left.
  - apply scheduler_frame. by right.
Qed.

Lemma sessionId_run evs w : sessionId (page (run evs w)) = sessionId (page w).
Proof.
  revert w. induction evs as [|e evs IH]; intros w; cbn; [done|].
  by rewrite IH, sessionId_step.
Qed.

(** X1. The transcript is append-only: whatever happens, the entries already
    there stay in place and each event adds one entry at most. *)
Theorem X1_transcript_append_only (evs : list Event) (w : World) :
  exists l, messages (page (run evs w)) = messages (page w) ++ l /\
            length l <= length evs.
Proof.
  revert w. induction evs as [|e evs IH]; intros w; cbn.
  - exists []. by rewrite app_nil_r.
  - destruct (step_messages e w) as (l1 & Hl1 & Hn1).
    destruct (IH (step e w)) as (l2 & Hl2 & Hn2).
    exists (l1 ++ l2). rewrite Hl2, Hl1, <- app_assoc. split; [done|].
    rewrite length_app. lia.
Qed.

(** What a submission does to the transcript and to the record of calls:
    nothing, or a guarded append of the user entry and one call. *)
Lemma sendMessage_exchange text w :
  (messages (page (exec (sendMessage text) w)) = messages (page w) /\
   backendCalls (env (exec (sendMessage text) w)) = backendCalls (env w)) \/
  (exists t, t <> [] /\ trim t = t /\
     messages (page (exec (sendMessage text) w)) =
       appendMessage_updater User t (messages (page w)) /\
     backendCalls (env (exec (sendMessage text) w)) =
       backendCalls (env w) ++ [(t, sessionId (page w))]).
Proof.
  unfold exec.
  destruct (decide (trim text = [])) as [Ht|Ht].
  { left. by rewrite sendMessage_dropped by (by left). }
  destruct (loadingRef (page w)) eqn:Hl.
  { left. by rewrite sendMessage_dropped by (by right). }
  right. exists (trim text). rewrite sendMessage_admitted by done.
  split; [done|]. split; [apply trim_idem|]. done.
Qed.

(** What one event does to them: nothing; or a submission is admitted; or
    an assistant entry is appended. *)
Lemma step_exchange e w :
  (messages (page (step e w)) = messages (page w) /\
   backendCalls (env (step e w)) = backendCalls (env w)) \/
  (exists t, t <> [] /\ trim t = t /\
     messages (page (step e w)) =
       appendMessage_updater User t (messages (page w)) /\
     backendCalls (env (step e w)) =
       backendCalls (env w) ++ [(t, sessionId (page w))]) \/
  (exists m, role m = Assistant /\
     messages (page (step e w)) = messages (page w) ++ [m] /\
     backendCalls (env (step e w)) = backendCalls (env w)).
Proof.
  assert (Hsame : forall w', pipeline_view w' = pipeline_view w ->
    messages (page w') = messages (page w) /\
    backendCalls (env w') = backendCalls (env w)).
  { intros w' Hv. unfold pipeline_view in Hv. injection Hv as Hp _ Hb _.
    by rewrite Hp, Hb. }
  assert (Hsend : forall text w',
    pipeline_view w' = pipeline_view (exec (sendMessage text) w) ->
    (messages (page w') = messages (page w) /\
     backendCalls (env w') = backendCalls (env w)) \/
    (exists t, t <> [] /\ trim t = t /\
       messages (page w') = appendMessage_updater User t (messages (page w)) /\
       backendCalls (env w') = backendCalls (env w) ++ [(t, sessionId (page w))])).
  { intros text w' Hv. unfold pipeline_view in Hv. injection Hv as Hp _ Hb _.
    rewrite Hp, Hb. apply sendMessage_exchange. }
  unfold step. destruct e; cbn [handler].
  - by left.
  - destruct (Hsend (input (page w)) (exec handleSend w)) as [H|H]; auto.
  - left. apply Hsame. unfold clickVoice, exec, bind, read.
    destruct (voiceActive _);
      [apply stop_pipeline_view | apply start_pipeline_view].
  - left. apply Hsame, start_pipeline_view.
  - left. apply Hsame, stop_pipeline_view.
  - destruct (signal_pipeline_view h sig w) as [Hv | [text Hv]].
    + left. by apply Hsame.
    + destruct (Hsend text _ Hv) as [H|H]; auto.
  - unfold exec, backend_settles, bind, read, modify, ret.
    destruct (inflight (env w) !! i); [|by left].
    destruct settled as [resp|err].
    + rewrite sendMessage_resume_fulfilled. right. right.
      by exists (assistant_reply resp).
    + rewrite sendMessage_resume_rejected. cbn -[appendMessage_updater fallback].
      destruct (updater_cases Assistant fallback (messages (page w)))
        as [[_ ->] | [_ ->]]; [by left|].
      right. right. by exists fallback_entry.
  - left. destruct (scheduler_frame render w)
      as (_ & _ & -> & _ & _ & _ & _ & -> & _); [by left|done].
  - left. destruct (scheduler_frame flush_effect w)
      as (_ & _ & -> & _ & _ & _ & _ & -> & _); [by right|done].
Qed.

Lemma no_repeat_snoc ms x :
  no_repeat ms ->
  (forall l, last ms = Some l -> role l = User -> role x = User ->
     content l <> content x) ->
  no_repeat (ms ++ [x]).
Proof.
  intros Hnr Hlast i a b Ha Hb Hra Hrb.
  destruct (decide (S i < length ms)) as [Hlt|Hge].
  - rewrite lookup_app_l in Ha by lia. rewrite lookup_app_l in Hb by lia.
    by apply (Hnr i a b).
  - destruct (decide (S i = length ms)) as [Heq|Hne].
    + rewrite lookup_app_l in Ha by lia. rewrite lookup_app_r in Hb by lia.
      replace (S i - length ms) with 0 in Hb by lia.
      injection Hb as <-. apply (Hlast a); try done.
      rewrite last_lookup. by replace (Init.Nat.pred (length ms)) with i by lia.
    + apply lookup_lt_Some in Hb. rewrite length_app in Hb. cbn in Hb. lia.
Qed.

(** The two properties of the transcript are kept by a guarded append of a
    user entry and by any append of an assistant entry. *)
Lemma shape_user_append t ms :
  t <> [] -> trim t = t ->
  Forall entry_ok ms /\ no_repeat ms ->
  Forall entry_ok (appendMessage_updater User t ms) /\
  no_repeat (appendMessage_updater User t ms).
Proof.
  intros Ht Htrim [Hok Hnr].
  destruct (updater_cases User t ms) as [[_ ->] | [Hne ->]]; [done|].
  split.
  - apply Forall_app. split; [done|]. by repeat constructor.
  - apply no_repeat_snoc; [done|]. intros l Hl Hr _ Hc.
    apply Hne. by exists l.
Qed.

Lemma shape_assistant_append m ms :
  role m = Assistant ->
  Forall entry_ok ms /\ no_repeat ms ->
  Forall entry_ok (ms ++ [m]) /\ no_repeat (ms ++ [m]).
Proof.
  intros Hm [Hok Hnr]. split.
  - apply Forall_app. split; [done|]. constructor; [|constructor].
    intros Hu. congruence.
  - apply no_repeat_snoc; [done|]. intros l _ _ Hu. congruence.
Qed.

Lemma run_messages evs w :
  exists l, messages (page (run evs w)) = messages (page w) ++ l.
Proof.
  revert w. induction evs as [|e evs IH]; intros w; cbn [run].
  - exists []. by rewrite app_nil_r.
  - destruct (step_messages e w) as (l1 & Hl1 & _).
    destruct (IH (step e w)) as (l2 & Hl2).
    exists (l1 ++ l2). by rewrite Hl2, Hl1, <- app_assoc.
Qed.

(** X2. In every state of the page the transcript begins with the greeting;
    every user entry in it is non-empty, trimmed and without sources; and no
    user entry repeats the content of a user entry right before it. *)
Theorem X2_transcript_shape (h : Host) (now : N) (evs : list Event) :
  let w := run evs (initial h now) in
  head (messages (page w)) =
    Some {| role := Assistant; content := greeting; sources := None |} /\
  Forall entry_ok (messages (page w)) /\
  no_repeat (messages (page w)).
Proof.
  intros w. split.
  - destruct (run_messages evs (initial h now)) as (l & Hl).
    unfold w. by rewrite Hl.
  - unfold w.
    apply (invariant_run (fun w => Forall entry_ok (messages (page w)) /\
                                   no_repeat (messages (page w)))).
    + intros e w' Hw'.
      destruct (step_exchange e w')
        as [[-> _] | [(t & Ht & Htrim & -> & _) | (m & Hm & -> & _)]].
      * done.
      * by apply shape_user_append.
      * by apply shape_assistant_append.
    + split.
      * constructor; [|constructor]. intros Hu. discriminate Hu.
      * intros [|i] a b Ha Hb; cbn in Ha, Hb; discriminate.
Qed.

Lemma call_ok_mono sid ms l c : call_ok sid ms c -> call_ok sid (ms ++ l) c.
Proof.
  intros (Hs & Hne & Ht & m & Hin & Hr & Hc).
  repeat split; try done. exists m. split; [|done].
  apply in_or_app. by left.
Qed.

(** X3. The session id is fixed at the first render and never changes, and
    every backend call carries it together with a text that is non-empty,
    trimmed and the content of a user entry of the transcript. *)
Theorem X3_calls_well_formed (h : Host) (now : N) (evs : list Event) :
  let w := run evs (initial h now) in
  sessionId (page w) = lit "session-" ++ lit (pretty now) /\
  Forall (call_ok (sessionId (page w)) (messages (page w)))
         (backendCalls (env w)).
Proof.
  intros w. split; [apply sessionId_run|]. unfold w.
  apply (invariant_run (fun w =>
    Forall (call_ok (sessionId (page w)) (messages (page w)))
           (backendCalls (env w)))).
  - intros e w' Hw'. rewrite sessionId_step.
    destruct (step_messages e w') as (l & Hl & _).
    assert (Hold : Forall (call_ok (sessionId (page w')) (messages (page (step e w'))))
                          (backendCalls (env w'))).
    { rewrite Hl. eapply Forall_impl; [exact Hw'|].
      intros c. apply call_ok_mono. }
    destruct (step_exchange e w')
      as [[_ ->] | [(t & Ht & Htrim & Hm & ->) | (m & _ & _ & ->)]];
      try done.
    apply Forall_app. split; [done|]. constructor; [|constructor].
    repeat split; try done.
    destruct (updater_ends_with User t (messages (page w'))) as (u & Hu & Hr & Hc).
    exists u. rewrite Hm. split; [|done].
    apply list_elem_of_In. by apply last_Some_elem_of.
  - constructor.
Qed.

(** ** What the controller emits *)

Lemma sendMessage_transcriptions text w :
  transcriptions (env (exec (sendMessage text) w)) = transcriptions (env w).
Proof. apply sendMessage_controller_view. Qed.

(** An event makes at most one [onTranscription] call, with role user and a
    trimmed, non-empty text. *)
Lemma step_transcriptions e w :
  transcriptions (env (step e w)) = transcriptions (env w) \/
  exists t, t <> [] /\ trim t = t /\
    transcriptions (env (step e w)) = transcriptions (env w) ++ [(User, t)].
Proof.
  assert (Hstop : forall thrown,
    transcriptions (env (exec (stop thrown) w)) = transcriptions (env w)).
  { intros thrown. unfold exec.
    destruct (recognitionRef (voice w)) as [h|] eqn:Hr;
      [by rewrite (stop_handle _ _ h) | by rewrite stop_no_handle]. }
  assert (Hstart : forall thrown,
    transcriptions (env (exec (startVoice thrown) w)) = transcriptions (env w)).
  { intros thrown. unfold exec.
    destruct (recognitionRef (voice w)) as [h|] eqn:Hr.
    { unfold startVoice. by rewrite start_busy by (left; by eexists). }
    destruct (isRecordingRef (voice w)) eqn:Hi.
    { unfold startVoice. by rewrite start_busy by (by right). }
    destruct (window_SpeechRecognition (host (env w))
              || window_webkitSpeechRecognition (host (env w))) eqn:Hc;
      [by rewrite start_created | by rewrite start_unsupported]. }
  unfold step. destruct e; cbn [handler].
  - by left.
  - left. unfold handleSend, exec, bind, read. apply sendMessage_transcriptions.
  - left. unfold clickVoice, exec, bind, read.
    destruct (voiceActive _); [apply Hstop | apply Hstart].
  - left. apply Hstart.
  - left. apply Hstop.
  - signal_cases h sig w; try (by left).
    right. exists (trim (finalized_text event)).
    split; [by apply truthy_true|]. split; [apply trim_idem|].
    match goal with |- context [sendMessage ?t ?w0] =>
      pose proof (sendMessage_transcriptions t w0) as Htr;
      unfold exec in Htr; rewrite Htr end.
    done.
  - left. unfold exec, backend_settles, bind, read, modify, ret.
    destruct (inflight (env w) !! i); [|done].
    destruct settled;
      [by rewrite sendMessage_resume_fulfilled
      | by rewrite sendMessage_resume_rejected].
  - left. apply scheduler_frame. by left.
  - left. apply scheduler_frame. by right.
Qed.

(** X4. [onTranscription] is only ever called with role user and a text that
    is non-empty and trimmed, and no event calls it more than once. *)
Theorem X4_emissions_well_formed (h : Host) (now : N) (evs : list Event)
    (e : Event) :
  let w := run evs (initial h now) in
  Forall emission_ok (transcriptions (env w)) /\
  exists l, transcriptions (env (step e w)) = transcriptions (env w) ++ l /\
            length l <= 1.
Proof.
  intros w. split.
  - unfold w. apply (invariant_run (fun w => Forall emission_ok (transcriptions (env w)))).
    + intros e' w' Hw'.
      destruct (step_transcriptions e' w') as [-> | (t & Ht & Htrim & ->)];
        [done|].
      apply Forall_app. split; [done|]. by repeat constructor.
    + constructor.
  - destruct (step_transcriptions e w) as [-> | (t & _ & _ & ->)].
    + no_growth.
    + eexists. split; [done|]. cbn. lia.
Qed.

(** X5. A result signal with non-empty finalized text, on an object whose
    [onresult] is attached, hands the text to the callback once.  Under a
    lowered [loadingRef] the text is submitted: the transcript ends with its
    user entry (appended unless it was there already), one backend call and
    one pending request with exactly that text and the session id are added,
    and the ref is raised.  Under a raised [loadingRef] the utterance is
    dropped after the callback: the pipeline stays as it was. *)
Theorem X5_spoken_utterance (w : World) (h : Handle) (o : SpeechRecognition)
    (event : SpeechRecognitionEvent) :
  objects (env w) !! h = Some o ->
  onresult o <> None ->
  trim (finalized_text event) <> [] ->
  let t := trim (finalized_text event) in
  let w' := exec (platform_signal h (SigResult event)) w in
  transcriptions (env w') = transcriptions (env w) ++ [(User, t)] /\
  (loadingRef (page w) = false ->
     ends_with User t (messages (page w')) /\
     (~ ends_with User t (messages (page w)) ->
        messages (page w') = messages (page w) ++ [user_entry t]) /\
     backendCalls (env w') = backendCalls (env w) ++ [(t, sessionId (page w))] /\
     inflight (env w') = inflight (env w) ++ [(t, sessionId (page w))] /\
     loadingRef (page w') = true) /\
  (loadingRef (page w) = true -> pipeline_view w' = pipeline_view w).
Proof.
  intros Ho Hcb Ht t w'.
  assert (Hw' : w' = exec (sendMessage t)
    (with_env (fun e => put_transcriptions (transcriptions e ++ [(User, t)]) e) w)).
  { unfold w', exec, platform_signal, dispatch, bind, read, ret. rewrite Ho.
    destruct (onresult o) as [[r]|]; [|done].
    rewrite onresult_spec. cbn zeta. fold t.
    by rewrite (proj2 (truthy_true t) Ht). }
  set (w0 := with_env _ w) in Hw'.
  assert (Htt : trim t = t) by apply trim_idem.
  split; [|split].
  - rewrite Hw', sendMessage_transcriptions. done.
  - intros Hl. rewrite Hw'. unfold exec.
    rewrite sendMessage_admitted by (by rewrite ?Htt). rewrite Htt.
    cbn -[appendMessage_updater].
    split; [apply updater_ends_with|]. split; [|done].
    intros Hne.
    by destruct (updater_cases User t (messages (page w))) as [[He _] | [_ ->]].
  - intros Hl. rewrite Hw'. unfold exec.
    by rewrite sendMessage_dropped by (by right).
Qed.

(** ** Intent, status and the button *)

Lemma ActiveInv_step e w : ActiveInv w -> ActiveInv (step e w).
Proof.
  intros Hinv.
  assert (Hsame : forall w', controller_view w' = controller_view w ->
                  ActiveInv w').
  { intros w' Hv. unfold controller_view in Hv. injection Hv as Hv _ _ _.
    unfold ActiveInv. by rewrite Hv. }
  assert (Hstop : forall thrown, ActiveInv (exec (stop thrown) w)).
  { intros thrown. unfold exec, ActiveInv.
    destruct (recognitionRef (voice w)) as [h|] eqn:Hr;
      [by rewrite (stop_handle _ _ h) | by rewrite stop_no_handle]. }
  assert (Hstart : forall thrown, ActiveInv (exec (startVoice thrown) w)).
  { intros thrown. unfold exec.
    destruct (recognitionRef (voice w)) as [h|] eqn:Hr.
    { unfold startVoice. by rewrite start_busy by (left; by eexists). }
    destruct (isRecordingRef (voice w)) eqn:Hi.
    { unfold startVoice. by rewrite start_busy by (by right). }
    destruct (window_SpeechRecognition (host (env w))
              || window_webkitSpeechRecognition (host (env w))) eqn:Hc.
    - rewrite start_created by done. unfold ActiveInv. by destruct thrown.
    - rewrite start_unsupported by done. unfold ActiveInv. cbn. congruence. }
  unfold step. destruct e; cbn [handler].
  - by apply Hsame.
  - apply Hsame. unfold handleSend, exec, bind, read.
    apply sendMessage_controller_view.
  - unfold clickVoice, exec, bind, read.
    destruct (voiceActive _); [apply Hstop | apply Hstart].
  - apply Hstart.
  - apply Hstop.
  - signal_cases h sig w; try done;
      try (unfold ActiveInv; cbn; done || congruence).
    match goal with |- context [sendMessage ?t ?w0] =>
      destruct (sendMessage_controller_view t w0) as [Hv _];
      unfold exec, controller_view in Hv; injection Hv as Hv _ _ _;
      unfold ActiveInv; rewrite Hv end.
    apply Hinv.
  - apply Hsame, settles_controller_view.
  - apply Hsame, render_controller_view.
  - apply Hsame, flush_controller_view.
Qed.

(** X6. In every state of the page the [isRecording] state mirrors its ref,
    and while listening intent is set the status is connecting or ready, the
    label is not "Off", the current handle names an object with the four
    callbacks attached, and a click on the microphone button calls [stop]. *)
Theorem X6_intent_shows_active (h : Host) (now : N) (evs : list Event) :
  let w := run evs (initial h now) in
  isRecording (voice w) = isRecordingRef (voice w) /\
  (isRecordingRef (voice w) = true ->
   (status (voice w) = Connecting \/ status (voice w) = Ready) /\
   voiceLabel (status (voice w)) <> lit "Off" /\
   (exists hd o, recognitionRef (voice w) = Some hd /\
                 objects (env w) !! hd = Some o /\ is_attached hd o) /\
   forall thrown, clickVoice thrown w = stopVoice thrown w).
Proof.
  intros w.
  assert (Hreach : reachable w) by (by exists h, now, evs).
  destruct (reachable_VoiceInv w Hreach) as (H1 & H2 & H3 & _).
  assert (Hact : ActiveInv w).
  { unfold w. apply invariant_run; [apply ActiveInv_step|]. by intros ?. }
  split; [done|]. intros Hi.
  specialize (Hact Hi). destruct (H2 Hi) as [hd Hhd].
  destruct (H3 hd Hhd) as (o & Ho & Hatt).
  split; [|split; [|split]].
  - destruct (status (voice w)); auto; done.
  - destruct (status (voice w)); done.
  - by exists hd, o.
  - intros thrown. unfold clickVoice, bind, read. by rewrite Hact.
Qed.

(** X7. No restart after a platform error: the error signal on the current
    object followed by its ended signal leaves status idle, the error
    message in place, the handle kept and the intent cleared, and the
    platform is told nothing. *)
Theorem X7_no_restart_after_error (w : World) (h : Handle)
    (reason : option jsstring) (thrown : option JsError) :
  reachable w ->
  recognitionRef (voice w) = Some h ->
  let w1 := exec (platform_signal h (SigError reason)) w in
  let w2 := exec (platform_signal h (SigEnd thrown)) w1 in
  status (voice w1) = Error /\
  status (voice w2) = Idle /\
  error (voice w2) = Some (error_message reason) /\
  recognitionRef (voice w2) = Some h /\
  isRecordingRef (voice w2) = false /\
  platformCalls (env w2) = platformCalls (env w) /\
  pipeline_view w2 = pipeline_view w.
Proof.
  intros Hreach Hr w1 w2.
  destruct (reachable_VoiceInv w Hreach) as (_ & _ & H3 & _).
  destruct (H3 h Hr) as (o & Ho & (_ & Hend & Herr & _)).
  assert (Hw1 : w1 = with_voice (fun c =>
     {| status := Error; isRecording := false;
        error := Some (error_message reason);
        recognitionRef := recognitionRef c; isRecordingRef := false |}) w).
  { unfold w1, exec, platform_signal, dispatch, bind, read, ret.
    rewrite Ho, Herr. by rewrite onerror_spec. }
  assert (Ho1 : objects (env w1) !! h = Some o) by (by rewrite Hw1).
  assert (Hi1 : isRecordingRef (voice w1) = false) by (by rewrite Hw1).
  assert (Hw2 : w2 = with_voice (put_status Idle) w1).
  { unfold w2, exec, platform_signal, dispatch, bind, read, ret.
    rewrite Ho1, Hend. by rewrite onend_idle. }
  rewrite Hw2, Hw1. cbn. by rewrite Hr.
Qed.



(** X9. The platform is called from [start], [stop] and the ended signal
    only, and once at most by each: over any run the record of platform
    calls grows by no more than the number of such events. *)
Theorem X9_platform_calls_bounded (evs : list Event) (w : World) :
  exists l, platformCalls (env (run evs w)) = platformCalls (env w) ++ l /\
            length l <= length (List.filter may_call_platform evs).
Proof.
  revert w. induction evs as [|e evs IH]; intros w; cbn [run List.filter].
  - no_growth.
  - destruct (step_platformCalls e w) as (l1 & Hl1 & Hn1 & Hnone).
    destruct (IH (step e w)) as (l2 & Hl2 & Hn2).
    exists (l1 ++ l2). rewrite Hl2, Hl1, <- app_assoc. split; [done|].
    rewrite length_app. destruct (may_call_platform e); cbn [length].
    + lia.
    + rewrite (Hnone eq_refl). cbn. lia.
Qed.

(** ** Hosts without speech recognition, and failed starts *)

Lemma UnsupportedInv_step e w : UnsupportedInv w -> UnsupportedInv (step e w).
Proof.
  intros Hinv Hsup. rewrite host_step in Hsup.
  destruct (Hinv Hsup) as (Ho & Hp & Ht & Hr & Hi).
  assert (Hsame : forall w', controller_view w' = controller_view w ->
    transcriptions (env w') = transcriptions (env w) ->
    objects (env w') = [] /\ platformCalls (env w') = [] /\
    transcriptions (env w') = [] /\
    recognitionRef (voice w') = None /\ isRecordingRef (voice w') = false).
  { intros w' Hv Htr. unfold controller_view in Hv.
    injection Hv as Hv Hob Hpc _. by rewrite Hv, Hob, Hpc, Htr. }
  assert (Hstop : forall thrown, stop thrown w =
    (Normal tt, with_voice (fun c =>
     {| status := Idle; isRecording := false; error := error c;
        recognitionRef := None; isRecordingRef := false |}) w)).
  { intros thrown. by rewrite stop_no_handle. }
  assert (Hstart : forall thrown, startVoice thrown w =
    (Normal tt, with_voice (fun c =>
     put_status Error
       (put_error
          (Some (lit "Speech recognition is not supported in this browser")) c))
     w)).
  { intros thrown. by rewrite start_unsupported. }
  unfold step. destruct e; cbn [handler].
  - by apply Hsame.
  - unfold handleSend, exec, bind, read.
    apply Hsame; apply sendMessage_controller_view.
  - unfold clickVoice, exec, bind, read, stopVoice. destruct (voiceActive _).
    + by rewrite Hstop.
    + by rewrite Hstart.
  - unfold exec. by rewrite Hstart.
  - unfold exec, stopVoice. by rewrite Hstop.
  - unfold exec, platform_signal.
    by rewrite dispatch_unknown by (by rewrite Ho).
  - apply Hsame; [apply settles_controller_view|].
    unfold exec, backend_settles, bind, read, modify, ret.
    destruct (inflight (env w) !! i); [|done].
    destruct settled;
      [by rewrite sendMessage_resume_fulfilled
      | by rewrite sendMessage_resume_rejected].
  - apply Hsame; apply scheduler_frame; by left.
  - apply Hsame; apply scheduler_frame; by right.
Qed.

(** X10. On a host that offers neither [SpeechRecognition] nor
    [webkitSpeechRecognition] no recognition object ever exists, the
    platform is never called and nothing is ever transcribed; every
    [start] ends with status error and the fixed message, however often it
    is tried. *)
Theorem X10_unsupported_host (h : Host) (now : N) (evs : list Event)
    (thrown : option JsError) :
  window_SpeechRecognition h || window_webkitSpeechRecognition h = false ->
  let w := run evs (initial h now) in
  let w' := exec (startVoice thrown) w in
  objects (env w) = [] /\
  platformCalls (env w) = [] /\
  transcriptions (env w) = [] /\
  recognitionRef (voice w) = None /\
  status (voice w') = Error /\
  error (voice w') =
    Some (lit "Speech recognition is not supported in this browser") /\
  recognitionRef (voice w') = None /\
  isRecordingRef (voice w') = false /\
  env w' = env w /\
  page w' = page w.
Proof.
  intros Hsup w w'.
  assert (Hinv : UnsupportedInv w).
  { unfold w. apply invariant_run; [apply UnsupportedInv_step|]. by intros _. }
  assert (Hhost : host (env w) = h) by (unfold w; by rewrite host_run).
  destruct Hinv as (Ho & Hp & Ht & Hr & Hi); [by rewrite Hhost|].
  assert (Hw' : w' = with_voice (fun c =>
     put_status Error
       (put_error
          (Some (lit "Speech recognition is not supported in this browser")) c))
     w).
  { unfold w', exec. rewrite start_unsupported; try done. by rewrite Hhost. }
  rewrite Hw'. cbn. by rewrite Hr, Hi.
Qed.

(** X11. When [recognition.start()] throws inside [start], status becomes
    error with the fixed message and the handle and the intent are cleared,
    but the object just created keeps its four callbacks: a start signal of
    that object still sets status to ready, with no current handle.  The
    next [start] is accepted and creates another object. *)
Theorem X11_failed_start_leaves_callbacks (w : World) (err : JsError) :
  reachable w ->
  recognitionRef (voice w) = None ->
  supported (host (env w)) = true ->
  let h := length (objects (env w)) in
  let w' := exec (startVoice (Some err)) w in
  status (voice w') = Error /\
  error (voice w') = Some (lit "Failed to start speech recognition") /\
  recognitionRef (voice w') = None /\
  isRecordingRef (voice w') = false /\
  platformCalls (env w') = platformCalls (env w) ++ [CallStart h] /\
  (exists o, objects (env w') !! h = Some o /\ is_attached h o) /\
  status (voice (exec (platform_signal h SigStart) w')) = Ready /\
  recognitionRef (voice (exec (platform_signal h SigStart) w')) = None /\
  recognitionRef (voice (exec (startVoice None) w')) = Some (S h).
Proof.
  intros Hreach Hr Hsup h w'.
  destruct (reachable_VoiceInv w Hreach) as (_ & H2 & _).
  assert (Hi : isRecordingRef (voice w) = false).
  { destruct (isRecordingRef (voice w)); [|done].
    destruct (H2 eq_refl) as [x Hx]. congruence. }
  assert (Hw' : w' =
    {| page := page w;
       voice :=
         {| status := Error; isRecording := false;
            error := Some (lit "Failed to start speech recognition");
            recognitionRef := None; isRecordingRef := false |};
       env :=
         put_platformCalls (platformCalls (env w) ++ [CallStart h])
           (put_objects
              (objects (env w) ++ [configured h (navigator_language (host (env w)))])
              (env w)) |}).
  { unfold w', exec. by rewrite start_created. }
  assert (Ho : objects (env w') !! h =
               Some (configured h (navigator_language (host (env w))))).
  { rewrite Hw'. cbn. by apply list_lookup_middle. }
  assert (Hsig : exec (platform_signal h SigStart) w' =
                 with_voice (put_status Ready) w').
  { unfold exec, platform_signal, dispatch, bind, read, ret. rewrite Ho.
    cbn [onstart configured]. by rewrite onstart_spec. }
  assert (Hnext : recognitionRef (voice (exec (startVoice None) w')) = Some (S h)).
  { unfold exec. rewrite start_created; [|by rewrite Hw'..].
    cbn. rewrite Hw'. cbn. rewrite length_app. cbn. f_equal. unfold h. lia. }
  rewrite Hsig. split; [by rewrite Hw'|]. split; [by rewrite Hw'|].
  split; [by rewrite Hw'|]. split; [by rewrite Hw'|].
  split; [by rewrite Hw'|]. split; [by eexists|].
  split; [done|]. split; [by rewrite Hw'|done].
Qed.

(** X12. Calling [start] twice in a row (the platform accepting the call)
    is the same as calling it once: the second call creates no object and
    reaches no platform method, in any world. *)
Theorem X12_start_twice (w : World) :
  startVoice None (exec (startVoice None) w) =
  (Normal tt, exec (startVoice None) w).
Proof.
  unfold exec.
  destruct (recognitionRef (voice w)) as [h|] eqn:Hr.
  { assert (Hb : startVoice None w = (Normal tt, w))
      by (apply start_busy; left; by eexists).
    rewrite Hb. exact Hb. }
  destruct (isRecordingRef (voice w)) eqn:Hi.
  { assert (Hb : startVoice None w = (Normal tt, w))
      by (apply start_busy; by right).
    rewrite Hb. exact Hb. }
  destruct (window_SpeechRecognition (host (env w))
            || window_webkitSpeechRecognition (host (env w))) eqn:Hc.
  - rewrite (start_created None w) by done. unfold startVoice.
    apply start_busy. left. by eexists.
  - rewrite (start_unsupported None w) by done. cbn [snd].
    rewrite start_unsupported; [|cbn; assumption..].
    destruct w as [p [s r e rr ir] en]. reflexivity.
Qed.

(** ** The loop of the result handler at its bounds *)

Lemma filter_final_none (rs : list SpeechRecognitionResult) :
  Forall (fun r => isFinal r = false) rs ->
  filter (fun r => isFinal r = true) rs = [].
Proof.
  induction 1 as [|r rs Hr _ IH]; [done|].
  rewrite filter_cons, decide_False by congruence. exact IH.
Qed.

(** X13. The loop of [onresult] reads the results from [resultIndex] on and
    nothing else: results before the index never reach the text again, an
    index at or past the end gives the empty text, results that are all
    interim give the empty text, and the text of a list of results read from
    the start is the texts of its parts joined. *)
Theorem X13_onresult_bounds (pre rs : list SpeechRecognitionResult) (i : nat) :
  onresult_finalText {| resultIndex := length pre + i; results := pre ++ rs |} =
    onresult_finalText {| resultIndex := i; results := rs |} /\
  (length rs <= i ->
   onresult_finalText {| resultIndex := i; results := rs |} = []) /\
  (Forall (fun r => isFinal r = false) rs ->
   onresult_finalText {| resultIndex := i; results := rs |} = []) /\
  onresult_finalText {| resultIndex := 0; results := pre ++ rs |} =
    onresult_finalText {| resultIndex := 0; results := pre |} ++
    onresult_finalText {| resultIndex := 0; results := rs |}.
Proof.
  rewrite !onresult_finalText_spec. unfold finalized_text.
  cbn [resultIndex results]. rewrite !drop_0.
  split; [by rewrite drop_app_add|]. split; [|split].
  - intros Hi. by rewrite drop_ge.
  - intros Hf. rewrite filter_final_none; [done|]. by apply Forall_drop.
  - by rewrite filter_app, map_app, concat_app.
Qed.

(** ** The widget's effect *)

Lemma run_ActiveInv h now evs : ActiveInv (run evs (initial h now)).
Proof. apply invariant_run; [apply ActiveInv_step|]. by intros ?. Qed.

(** X14. The effect that the widget runs when it is closed stops a session
    that shows as active and otherwise does nothing; either way, afterwards
    the button is not active and no listening intent is left.  It never
    touches the pipeline, and with the widget open it does nothing. *)
Theorem X14_widget_close_stops_listening (h : Host) (now : N)
    (evs : list Event) (thrown : option JsError) :
  let w := run evs (initial h now) in
  let w' := exec (widget_voice_effect false thrown) w in
  voiceActive (status (voice w')) = false /\
  isRecordingRef (voice w') = false /\
  (voiceActive (status (voice w)) = true ->
   recognitionRef (voice w') = None /\ status (voice w') = Idle) /\
  (voiceActive (status (voice w)) = false -> w' = w) /\
  pipeline_view w' = pipeline_view w /\
  widget_voice_effect true thrown w = (Normal tt, w).
Proof.
  intros w w'.
  pose proof (run_ActiveInv h now evs) as Hact. fold w in Hact.
  assert (Hstop : status (voice (exec (stop thrown) w)) = Idle /\
                  recognitionRef (voice (exec (stop thrown) w)) = None /\
                  isRecordingRef (voice (exec (stop thrown) w)) = false).
  { unfold exec. destruct (recognitionRef (voice w)) as [hd|] eqn:Hr;
      [by rewrite (stop_handle _ _ hd) | by rewrite stop_no_handle]. }
  destruct Hstop as (Hs & Hr & Hi).
  assert (Hw' : w' = if voiceActive (status (voice w))
                     then exec (stop thrown) w else w).
  { unfold w', widget_voice_effect, exec, bind, read, ret, stopVoice.
    cbn [negb andb]. unfold voiceActive. by destruct (_ || _). }
  destruct (voiceActive (status (voice w))) eqn:Ha.
  - rewrite Hw', Hs, Hr, Hi. repeat split; try done.
    apply stop_pipeline_view.
  - rewrite Hw', Ha. repeat split; try done.
    destruct (isRecordingRef (voice w)) eqn:Hint; [|done].
    specialize (Hact Hint). congruence.
Qed.

(** ** The two components keep apart *)

(** X15. The page's own events (typing, sending, a settlement, a render, a
    run of the loading effect) never change a cell of the controller, a
    recognition object, the
    record of platform calls or the record of transcriptions; and the
    controller's events other than a result signal (the button, [start],
    [stop], start, error and ended signals) never change the transcript,
    the text box, the loading flags, the pending request or the record of
    backend calls. *)
Theorem X15_components_keep_apart (e : Event) (w : World) :
  (of_pipeline e = true ->
   controller_view (step e w) = controller_view w /\
   transcriptions (env (step e w)) = transcriptions (env w)) /\
  (of_pipeline e = false -> is_result e = false ->
   pipeline_view (step e w) = pipeline_view w).
Proof.
  unfold step. destruct e; cbn [handler of_pipeline is_result]; split;
    try done; intros _.
  - unfold handleSend, exec, bind, read. apply sendMessage_controller_view.
  - intros _. unfold clickVoice, exec, bind, read.
    destruct (voiceActive _);
      [apply stop_pipeline_view | apply start_pipeline_view].
  - intros _. apply start_pipeline_view.
  - intros _. apply stop_pipeline_view.
  - intros Hres. signal_cases h sig w; done.
  - split; [apply settles_controller_view|].
    unfold exec, backend_settles, bind, read, modify, ret.
    destruct (inflight (env w) !! i); [|done].
    destruct settled;
      [by rewrite sendMessage_resume_fulfilled
      | by rewrite sendMessage_resume_rejected].
  - split; apply scheduler_frame; by left.
  - split; apply scheduler_frame; by right.
Qed.

(** ** The further statements at work on sample worlds *)

Lemma X5_witness :
  objects (env listening) !! 0 = Some (configured 0 (lit "en-GB")) /\
  trim (finalized_text one_final) <> [] /\
  loadingRef (page listening) = false /\
  backendCalls (env (exec (platform_signal 0 (SigResult one_final)) listening)) =
  backendCalls (env listening) ++ [(lit "what is a copay", sessionId (page listening))].
Proof.
  assert (Ho : objects (env listening) !! 0 = Some (configured 0 (lit "en-GB")))
    by reflexivity.
  assert (Hcb : onresult (configured 0 (lit "en-GB")) <> None) by discriminate.
  assert (Ht : trim (finalized_text one_final) <> [])
    by (vm_compute; discriminate).
  assert (Hl : loadingRef (page listening) = false) by reflexivity.
  destruct (X5_spoken_utterance listening 0 (configured 0 (lit "en-GB"))
              one_final Ho Hcb Ht) as (_ & Hidle & _).
  destruct (Hidle Hl) as (_ & _ & Hb & _).
  split; [exact Ho|]. split; [exact Ht|]. split; [exact Hl | exact Hb].
Defined.

Lemma X7_witness :
  recognitionRef (voice listening) = Some 0 /\
  status (voice (exec (platform_signal 0 (SigEnd None))
                   (exec (platform_signal 0 (SigError (Some (lit "no-speech"))))
                      listening))) = Idle.
Proof.
  assert (Hreach : reachable listening).
  { exists chrome, 0%N, [ClickVoice None; PlatformSignal 0 SigStart].
    reflexivity. }
  assert (Hr : recognitionRef (voice listening) = Some 0) by reflexivity.
  destruct (X7_no_restart_after_error listening 0 (Some (lit "no-speech")) None
              Hreach Hr) as (_ & Hs & _).
  split; [exact Hr | exact Hs].
Defined.


Lemma X10_witness :
  window_SpeechRecognition bare_host || window_webkitSpeechRecognition bare_host
    = false /\
  status (voice (exec (startVoice None)
                   (run [ClickVoice None; CallStopVoice None; ClickSend]
                      (initial bare_host 7)))) = Error.
Proof.
  assert (Hs : window_SpeechRecognition bare_host
               || window_webkitSpeechRecognition bare_host = false)
    by reflexivity.
  destruct (X10_unsupported_host bare_host 7
              [ClickVoice None; CallStopVoice None; ClickSend] None Hs)
    as (_ & _ & _ & _ & H & _).
  split; [exact Hs | exact H].
Defined.

Lemma X11_witness :
  recognitionRef (voice fresh) = None /\
  supported (host (env fresh)) = true /\
  status (voice (exec (platform_signal 0 SigStart)
                   (exec (startVoice (Some (DOMException (lit "NotAllowedError"))))
                      fresh))) = Ready /\
  recognitionRef (voice (exec (startVoice None)
                   (exec (startVoice (Some (DOMException (lit "NotAllowedError"))))
                      fresh))) = Some 1.
Proof.
  assert (Hreach : reachable fresh) by (exists chrome, 0%N, []; reflexivity).
  assert (Hr : recognitionRef (voice fresh) = None) by reflexivity.
  assert (Hs : supported (host (env fresh)) = true) by reflexivity.
  destruct (X11_failed_start_leaves_callbacks fresh
              (DOMException (lit "NotAllowedError")) Hreach Hr Hs)
    as (_ & _ & _ & _ & _ & _ & H1 & _ & H2).
  split; [exact Hr|]. split; [exact Hs|]. split; [exact H1 | exact H2].
Defined.

(** ** The append guard twice *)

(** X17. [appendMessage] is idempotent: appending an entry twice in a row
    gives the transcript of appending it once, whatever the role, the
    content and the transcript before. *)
Theorem X17_appendMessage_idempotent (r : Role) (c : jsstring) (w : World) :
  appendMessage r c (exec (appendMessage r c) w) =
  (Normal tt, exec (appendMessage r c) w).
Proof.
  assert (Hup : forall prev,
    appendMessage_updater r c (appendMessage_updater r c prev) =
    appendMessage_updater r c prev).
  { intros prev.
    assert (Hcases : appendMessage_updater r c prev = prev \/
                     appendMessage_updater r c prev =
                     prev ++ [{| role := r; content := c; sources := None |}]).
    { unfold appendMessage_updater. destruct (last prev) as [m|]; [|by right].
      destruct (bool_decide (role m = r) && bool_decide (content m = c));
        [by left | by right]. }
    destruct Hcases as [Heq | Heq].
    - rewrite Heq. exact Heq.
    - rewrite Heq.
      apply (appendMessage_updater_dup r c _
               {| role := r; content := c; sources := None |});
        [apply last_snoc | done | done]. }
  unfold appendMessage, setMessages, modify, exec.
  destruct w as [[ms inp ld sid lr] v e]. unfold with_page, put_messages.
  cbn. by rewrite Hup.
Qed.

(** ** Restart on end *)

(** X18. While listening intent is set and the platform accepts every
    restart, start and ended signals of the current object keep the session
    alive however long it goes on: the intent and the handle stay, the
    button stays active, each ended signal tells the platform exactly once
    to start the same object again, and the pipeline is not touched. *)
Theorem X18_restart_on_end (w : World) (h : Handle) (evs : list Event) :
  reachable w ->
  recognitionRef (voice w) = Some h ->
  isRecordingRef (voice w) = true ->
  Forall (heartbeat h) evs ->
  let w' := run evs w in
  isRecordingRef (voice w') = true /\
  recognitionRef (voice w') = Some h /\
  voiceActive (status (voice w')) = true /\
  platformCalls (env w') =
    platformCalls (env w) ++
    replicate (length (List.filter is_ended evs)) (CallStart h) /\
  objects (env w') = objects (env w) /\
  pipeline_view w' = pipeline_view w.
Proof.
  intros Hreach Hr Hi Hevs w'.
  destruct (reachable_VoiceInv w Hreach) as (_ & _ & H3 & _).
  destruct (H3 h Hr) as (o & Ho & (Hst & Hend & _)).
  assert (Hact : voiceActive (status (voice w)) = true).
  { destruct Hreach as (h0 & now & evs0 & ->). by apply run_ActiveInv. }
  unfold w'. clear w' H3 Hreach. revert w Hr Hi Ho Hact.
  induction Hevs as [|e evs He Hevs IH]; intros w Hr Hi Ho Hact;
    cbn [run List.filter].
  { cbn. by rewrite app_nil_r. }
  destruct He as [-> | ->]; cbn [is_ended].
  - assert (Hstep : step (PlatformSignal h SigStart) w =
                    with_voice (put_status Ready) w).
    { unfold step, exec. cbn [handler].
      unfold platform_signal, dispatch, bind, read, ret.
      rewrite Ho, Hst. by rewrite onstart_spec. }
    rewrite Hstep.
    destruct (IH (with_voice (put_status Ready) w) Hr Hi Ho eq_refl)
      as (? & ? & ? & ? & ? & ?).
    done.
  - assert (Hstep : step (PlatformSignal h (SigEnd None)) w =
      with_env (fun e => put_platformCalls (platformCalls e ++ [CallStart h]) e)
        (with_voice (put_status Connecting) w)).
    { unfold step, exec. cbn [handler].
      unfold platform_signal, dispatch, bind, read, ret.
      rewrite Ho, Hend. by rewrite onend_restart. }
    rewrite Hstep.
    destruct (IH (with_env
        (fun e => put_platformCalls (platformCalls e ++ [CallStart h]) e)
        (with_voice (put_status Connecting) w)) Hr Hi Ho eq_refl)
      as (? & ? & ? & Hp & ? & ?).
    repeat split; try done. rewrite Hp. cbn. by rewrite <- app_assoc.
Qed.

Lemma X18_witness :
  recognitionRef (voice listening) = Some 0 /\
  isRecordingRef (voice listening) = true /\
  platformCalls (env (run [PlatformSignal 0 (SigEnd None); PlatformSignal 0 SigStart;
                           PlatformSignal 0 (SigEnd None)] listening)) =
  platformCalls (env listening) ++ [CallStart 0; CallStart 0].
Proof.
  assert (Hreach : reachable listening).
  { exists chrome, 0%N, [ClickVoice None; PlatformSignal 0 SigStart].
    reflexivity. }
  assert (Hr : recognitionRef (voice listening) = Some 0) by reflexivity.
  assert (Hi : isRecordingRef (voice listening) = true) by reflexivity.
  assert (Hevs : Forall (heartbeat 0)
    [PlatformSignal 0 (SigEnd None); PlatformSignal 0 SigStart;
     PlatformSignal 0 (SigEnd None)]).
  { repeat (apply List.Forall_cons; [first [by left | by right]|]).
    apply List.Forall_nil. }
  destruct (X18_restart_on_end listening 0 _ Hreach Hr Hi Hevs)
    as (_ & _ & _ & H & _).
  split; [exact Hr|]. split; [exact Hi | exact H].
Defined.
